(** * Investment growth calculator: scenario engine and asset table

    A shallow embedding of [src/InvestmentGrowthCalculator.jsx]: the seeded
    random factors, the baseline projection, the scenario pipeline (drag,
    crisis, volatility, summary metrics) and the asset handlers.

    Number model.  JavaScript numbers are IEEE doubles.  They are idealised
    here as exact rationals ([Q]): [+ - * /], comparisons, [Math.min] and
    [Math.max] are the exact operations, and [toFixed(2)] followed by
    [parseFloat] is decimal rounding to two places.  Rounding error of double
    arithmetic, [NaN] and the infinities are outside the model.  The
    transcendental library functions ([Math.sqrt], [Math.log], [Math.cos],
    [Math.pow] at a non-integer exponent) have no rational value in general
    and are parameters of the development. *)

From Stdlib Require Import QArith Qabs Qround Qminmax Qpower Qcanon Lqa ZArith Lia.
From stdpp Require Import gmap strings list fin_maps pretty.

Local Open Scope Q_scope.

(** ** Data model *)

(** One entry of the asset table ([defaultAssets]).  The JavaScript field
    [return] is spelled [return_]. *)
Record Asset := mkAsset {
  return_ : Q;
  volatility : Q;
  drawdownImpact : Q;
  color : string;
  isBaseline : bool;
  crisisSensitivity : Q
}.

(** The asset table is a JavaScript object used as an ordered map: the code
    walks it with [Object.entries], in insertion order, and the order decides
    which random deviates an asset receives.  It is an association list in
    [Object.entries] order; its keys are pairwise distinct. *)
Definition AssetMap := list (string * Asset).

(** The key under which the baseline row value is written. *)
Definition baselineKey : string := "Baseline (No Scenario)".

Definition names (assets : AssetMap) : list string := assets.*1.

(** [assets[name]] for the keys of the table.  A name that is no key can
    still read as a value, inherited from [Object.prototype]; the handlers
    below tell these names apart with [isInherited]. *)
Fixpoint lookupAsset (assets : AssetMap) (name : string) : option Asset :=
  match assets with
  | [] => None
  | (k, a) :: rest => if String.eqb k name then Some a else lookupAsset rest name
  end.

(** The component state read by the engine ([useState] cells).  [years] is
    a whole number (the array sizes and row indices need one) and the seed an
    integer, as the [Random Seed] button and the default produce; the seed
    arithmetic is exact on doubles for the values the recurrence reaches. *)
Record Config := mkConfig {
  initialAmount : Q;
  years : nat;
  annualFees : Q;
  inflationRate : Q;
  enableRisk : bool;
  crisisType : string;
  drawdown : Q;
  recoveryYears : Q;
  recoveryType : string;
  enableVolatility : bool;
  volatilityLevel : Q;
  randomSeedBase : Z
}.

(** ** Number helpers *)

Definition Qltb (x y : Q) : bool := negb (Qle_bool y x).

(** [x || d] on numbers: [0] is falsy. *)
Definition js_or (x d : Q) : Q := if Qeq_bool x 0 then d else x.

Definition ofNat (n : nat) : Q := inject_Z (Z.of_nat n).

(** [parseFloat(x.toFixed(2))].  [toFixed] picks the integer [n] with
    [n / 100] closest to [|x|], the larger one on a tie, and keeps the sign;
    from [10^21] on it prints the number itself. *)
Definition toFixed2 (x : Q) : Q :=
  if Qle_bool (inject_Z (10 ^ 21)) (Qabs x) then x
  else if Qltb x 0
       then - (inject_Z (Qfloor ((- x) * 100 + (1 # 2))) / 100)
       else inject_Z (Qfloor (x * 100 + (1 # 2))) / 100.

(** [for (let i = first; i <= last; i++)]: the values of the loop variable. *)
Definition upto (first last : nat) : list nat := seq first (S last - first).

(** ** Asset table and its handlers (lines 27-84 and 375-395) *)

Definition defaultAssets : AssetMap :=
  [ ("Baseline (No Scenario)"%string,
       mkAsset 0 0 0 "#000000" true 0);
    ("BIL (Short-Term Treasuries)"%string,
       mkAsset 3 (2 # 100) (1 # 10) "#8884d8" false (1 # 10));
    ("KMLM (Managed Futures)"%string,
       mkAsset 4 (8 # 100) (3 # 10) "#82ca9d" false (5 # 10));
    ("SPHD (High-Dividend/Low-Vol)"%string,
       mkAsset 6 (12 # 100) (7 # 10) "#ffc658" false (8 # 10));
    ("SWPPX/SPX (S&P 500)"%string,
       mkAsset 7 (15 # 100) 1 "#ff7300" false 1);
    ("PFF (Preferred Stocks)"%string,
       mkAsset 4 (1 # 10) (8 # 10) "#00C49F" false (9 # 10));
    ("VUG (Large-Cap Growth)"%string,
       mkAsset 7 (18 # 100) (12 # 10) "#0088FE" false (12 # 10)) ].

(** [{ ...prev, [name]: a }]: an existing key keeps its place and takes the
    new value, a new key goes last.  (JavaScript lists keys that are array
    indices first; the keys written here are never of that form.) *)
Fixpoint setAsset (assets : AssetMap) (name : string) (a : Asset) : AssetMap :=
  match assets with
  | [] => [(name, a)]
  | (k, b) :: rest =>
      if String.eqb k name then (k, a) :: rest
      else (k, b) :: setAsset rest name a
  end.

(** [delete updated[name]] *)
Definition deleteAsset (assets : AssetMap) (name : string) : AssetMap :=
  filter (fun entry => entry.1 ≠ name) assets.

Definition newAssetFields : Asset :=
  mkAsset 5 (1 # 10) (5 # 10) "#999999" false 1.

(** [`New Asset ${Object.keys(assets).length}`] *)
Definition newAssetName (assets : AssetMap) : string :=
  "New Asset " +:+ pretty (length assets).

(** [handleAddAsset]: the next value of the [assets] state. *)
Definition handleAddAsset (assets : AssetMap) : AssetMap :=
  setAsset assets (newAssetName assets) newAssetFields.

(** Reading [.isBaseline] of [undefined] throws. *)
Inductive Fault := TypeError.

(** The property names every plain object inherits from [Object.prototype]:
    [obj[name]] is a function or an object for them, not [undefined],
    although they are no keys of [obj]. *)
Definition inheritedKeys : list string :=
  [ "constructor"; "__defineGetter__"; "__defineSetter__"; "hasOwnProperty";
    "__lookupGetter__"; "__lookupSetter__"; "isPrototypeOf";
    "propertyIsEnumerable"; "toString"; "valueOf"; "__proto__";
    "toLocaleString" ]%string.

Definition isInherited (name : string) : bool :=
  bool_decide (name ∈ inheritedKeys).

(** [handleRemoveAsset name]: the fault thrown, or the next value of the
    [assets] state (the same table when [setAssets] is not reached).  For an
    inherited name [assets[name].isBaseline] is [undefined], nothing is
    thrown, and the copy with the name deleted is stored. *)
Definition handleRemoveAsset (assets : AssetMap) (name : string)
    : Fault + AssetMap :=
  match lookupAsset assets name with
  | None =>
      if isInherited name then inr (deleteAsset assets name)
      else inl TypeError
  | Some asset =>
      if isBaseline asset then inr assets
      else inr (deleteAsset assets name)
  end.

(** The inline [onChange] of the name input (lines 791-800): copy the
    table, take the entry out, put it back under the new name.  The input is
    rendered for the entries of the table; for a name that is no key the
    code would store an entry that is no asset, which the asset type does
    not hold ([None]).  The plain assignment [updated[newName] = oldAsset]
    at the new name [__proto__], when that is no key, replaces the
    prototype of the table and adds no key: the result is no plain table
    ([None]).  As for [setAsset], the new name is taken not to be an array
    index. *)
Definition renameAsset (assets : AssetMap) (name newName : string)
    : option AssetMap :=
  match lookupAsset assets name with
  | None => None
  | Some oldAsset =>
      let updated := deleteAsset assets name in
      if String.eqb newName "__proto__"
         && negb (bool_decide (newName ∈ names updated))
      then None
      else Some (setAsset updated newName oldAsset)
  end.

(** A name with a character that is not a decimal digit is not an array
    index. *)
Definition isDigit (c : Ascii.ascii) : bool :=
  (48 <=? Ascii.nat_of_ascii c)%nat && (Ascii.nat_of_ascii c <=? 57)%nat.

Fixpoint hasNonDigit (s : string) : bool :=
  match s with
  | EmptyString => false
  | String c rest => negb (isDigit c) || hasNonDigit rest
  end.

(** The values the table inputs pass to [handleAssetChange]: a number
    ([Number(e.target.value)]) or a string (the colour). *)
Inductive FieldValue :=
  | NumberValue (q : Q)
  | StringValue (s : string).

(** [{ ...asset, [field]: value }] for the fields of the asset type; another
    field name, or a value of the other kind, leaves the type ([None]). *)
Definition setField (a : Asset) (field : string) (value : FieldValue)
    : option Asset :=
  match value with
  | NumberValue q =>
      if String.eqb field "return" then
        Some (mkAsset q (volatility a) (drawdownImpact a) (color a)
                      (isBaseline a) (crisisSensitivity a))
      else if String.eqb field "volatility" then
        Some (mkAsset (return_ a) q (drawdownImpact a) (color a)
                      (isBaseline a) (crisisSensitivity a))
      else if String.eqb field "drawdownImpact" then
        Some (mkAsset (return_ a) (volatility a) q (color a)
                      (isBaseline a) (crisisSensitivity a))
      else if String.eqb field "crisisSensitivity" then
        Some (mkAsset (return_ a) (volatility a) (drawdownImpact a) (color a)
                      (isBaseline a) q)
      else None
  | StringValue c =>
      if String.eqb field "color" then
        Some (mkAsset (return_ a) (volatility a) (drawdownImpact a) c
                      (isBaseline a) (crisisSensitivity a))
      else None
  end.

(** [handleAssetChange] (lines 367-373): the next value of the [assets]
    state, for an entry of the table.  For a name that is no key the code
    stores an entry holding the edited field alone, which is no asset
    ([None]); the table inputs are rendered for the entries only. *)
Definition handleAssetChange (assets : AssetMap) (name field : string)
    (value : FieldValue) : option AssetMap :=
  match lookupAsset assets name with
  | None => None
  | Some a =>
      match setField a field value with
      | None => None
      | Some a' => Some (setAsset assets name a')
      end
  end.

(** ** Scenario presets (lines 397-455) *)

Record Preset := mkPreset {
  p_enableRisk : bool;
  p_crisisType : string;
  p_drawdown : Q;
  p_recoveryYears : Q;
  p_recoveryType : string;
  p_enableVolatility : bool;
  p_volatilityLevel : Q
}.

Definition scenarioPresets : list (string * Preset) :=
  [ ("Nada"%string,
       mkPreset false "NONE" 0 1 "V_SHAPED" false 1);
    ("Mild Recession"%string,
       mkPreset true "RISK_OFF" 20 2 "V_SHAPED" true 1);
    ("Severe Crisis"%string,
       mkPreset true "RISK_OFF" 40 4 "U_SHAPED" true (15 # 10));
    ("Rising Rates Shock"%string,
       mkPreset true "RISING_RATES" 25 3 "L_SHAPED" true (12 # 10));
    ("Steady Growth"%string,
       mkPreset false "NONE" 0 1 "V_SHAPED" false 1) ].

(** [scenarioPresets[presetName]] for the keys of the table; inherited
    names are told apart with [isInherited]. *)
Fixpoint lookupPreset (table : list (string * Preset)) (presetName : string)
    : option Preset :=
  match table with
  | [] => None
  | (k, p) :: rest =>
      if String.eqb k presetName then Some p else lookupPreset rest presetName
  end.

(** [applyScenarioPreset]: the fault thrown, or the next scenario state with
    the next [selectedPreset].  Reading a field of [undefined] throws.  For
    an inherited name the table yields a value whose fields are all
    [undefined]: nothing is thrown and the scenario cells are set to
    [undefined], which is no scenario state ([inr None]). *)
Definition applyScenarioPreset (cfg : Config) (presetName : string)
    : Fault + option (Config * string) :=
  match lookupPreset scenarioPresets presetName with
  | None => if isInherited presetName then inr None else inl TypeError
  | Some preset =>
      inr (Some
             (mkConfig (initialAmount cfg) (years cfg) (annualFees cfg)
                (inflationRate cfg)
                (p_enableRisk preset) (p_crisisType preset)
                (p_drawdown preset) (p_recoveryYears preset)
                (p_recoveryType preset) (p_enableVolatility preset)
                (p_volatilityLevel preset) (randomSeedBase cfg),
              presetName))
  end.

(** What [randomFactors] reads of the asset table: the names in order, each
    with its [volatility] and [isBaseline] fields. *)
Definition rngView (assets : AssetMap) : list (string * Q * bool) :=
  (λ entry, (entry.1, volatility entry.2, isBaseline entry.2)) <$> assets.

(** The asset with its [crisisSensitivity] replaced. *)
Definition withSensitivity (a : Asset) (s : Q) : Asset :=
  mkAsset (return_ a) (volatility a) (drawdownImpact a) (color a)
          (isBaseline a) s.

(** ** Worked inputs *)

Definition baselineAsset : Asset := mkAsset 0 0 0 "#000000" true 0.

(** The [SWPPX/SPX (S&P 500)] entry of the default table. *)
Definition spx : Asset := mkAsset 7 (15 # 100) 1 "#ff7300" false 1.

Definition spxKey : string := "SWPPX/SPX (S&P 500)".

Definition twoAssets : AssetMap := [(baselineKey, baselineAsset); (spxKey, spx)].

(** 100000 over 5 years, no fees, no inflation, no risk, no volatility. *)
Definition steadyConfig : Config :=
  mkConfig 100000 5 0 0 false "NONE" 0 1 "V_SHAPED" false 1 1.

(** The same with an initial amount of one eighth. *)
Definition eighthConfig : Config :=
  mkConfig (1 # 8) 5 0 0 false "NONE" 0 1 "V_SHAPED" false 1 1.

(** The [Mild Recession] preset with volatility switched off, default
    inflation. *)
Definition recessionConfig : Config :=
  mkConfig 100000 5 0 (25 # 10) true "RISK_OFF" 20 2 "V_SHAPED" false 1 1.

(** The S&P entry with its crisis sensitivity edited to 0. *)
Definition spxInsensitive : Asset := mkAsset 7 (15 # 100) 1 "#ff7300" false 0.

Definition insensitiveAssets : AssetMap :=
  [(baselineKey, baselineAsset); (spxKey, spxInsensitive)].

(** A table in which one added asset was removed and the remaining one
    edited: two entries, the second named [New Asset 2]. *)
Definition crowdedAssets : AssetMap :=
  [(baselineKey, baselineAsset); ("New Asset 2"%string, spx)].

(** The [Mild Recession] preset as it is, and with the seed or the drawdown
    at 0. *)
Definition mildRecessionConfig : Config :=
  mkConfig 100000 5 0 (25 # 10) true "RISK_OFF" 20 2 "V_SHAPED" true 1 1.

Definition zeroSeedConfig : Config :=
  mkConfig 100000 5 0 (25 # 10) true "RISK_OFF" 20 2 "V_SHAPED" true 1 0.

Definition zeroDrawdownConfig : Config :=
  mkConfig 100000 5 0 (25 # 10) true "RISK_OFF" 0 2 "V_SHAPED" false 1 1.

(** The component's initial state: no risk, no volatility, inflation 2.5. *)
Definition riskFreeInflationConfig : Config :=
  mkConfig 100000 5 0 (25 # 10) false "NONE" 0 1 "V_SHAPED" false 1 1.

(** The risk switch on with the crisis type left at [NONE]. *)
Definition riskNoneConfig : Config :=
  mkConfig 100000 5 0 (25 # 10) true "NONE" 0 1 "V_SHAPED" false 1 1.


(** Rational stand-ins for the library functions, used to run the engine
    on the worked inputs. *)
Definition sample_pow_frac (b e : Q) : Q := b.
Definition sample_unary (x : Q) : Q := x.
Definition sample_PI : Q := 355 # 113.

(** ** The engine *)

Section Engine.

(** [Math.pow] at an exponent that is not an integer, [Math.sqrt],
    [Math.log], [Math.cos] and [Math.PI]. *)
Variable pow_frac : Q -> Q -> Q.
Variable Math_sqrt Math_log Math_cos : Q -> Q.
Variable Math_PI : Q.

(** [Math.pow(b, e)]: the exact power at an integer exponent. *)
Definition Math_pow (b e : Q) : Q :=
  let e' := Qred e in
  if Pos.eqb (Qden e') 1 then Qpower b (Qnum e') else pow_frac b e.

(** ** Crisis model: the per-asset constants (scenarioData, lines 214-232) *)

Definition effectiveSensitivity (asset : Asset) : Q :=
  js_or (crisisSensitivity asset) 1.

Definition drawdownImpactDecimal (cfg : Config) (asset : Asset) : Q :=
  (drawdown cfg / 100) * drawdownImpact asset * effectiveSensitivity asset.

Definition permanentDamageRatio (cfg : Config) (asset : Asset) : Q :=
  let cs := effectiveSensitivity asset in
  let baseDamage := drawdownImpactDecimal cfg asset * (4 # 10) in
  let sensitivityAdjustedDamage := baseDamage * cs in
  if String.eqb (crisisType cfg) "RISK_OFF" then
    (90 # 100) - sensitivityAdjustedDamage
  else if String.eqb (crisisType cfg) "RISING_RATES" then
    let ratesSensitivity :=
      if String.eqb (crisisType cfg) "RISING_RATES"
      then Qmin ((15 # 10) * cs) 1 else cs in
    (85 # 100) - sensitivityAdjustedDamage * ratesSensitivity
  else
    (95 # 100) - sensitivityAdjustedDamage.

(** ** Seeded random factors (randomFactors, lines 152-174) *)

(** [seededRandom]: advances the closure variable [seed] and returns the
    uniform deviate with the new seed.  [%] is the truncated remainder. *)
Definition seededRandom (seed : Z) : Q * Z :=
  let seed' := Z.rem (seed * 16807) 2147483647 in
  ((inject_Z seed' - 1) / 2147483646, seed').

(** [normalRandom]: Box-Muller on two consecutive uniform deviates.  The
    parameters are total; in the code [Math.log] of a deviate that is not
    positive is no finite number, so the value of a factor is meaningful
    only on draws whose first deviate is positive.  The seed threading does
    not depend on it. *)
Definition normalRandom (seed : Z) : Q * Z :=
  let '(u1, s1) := seededRandom seed in
  let '(u2, s2) := seededRandom s1 in
  (Math_sqrt (-2 * Math_log u1) * Math_cos (2 * Math_PI * u2), s2).

(** [Array(n).fill(0).map(() => normalRandom() * volatility * level)]:
    [n] draws, left to right. *)
Fixpoint drawFactors (n : nat) (vol level : Q) (seed : Z) : list Q * Z :=
  match n with
  | O => ([], seed)
  | S n' =>
      let '(z, s1) := normalRandom seed in
      let '(rest, s2) := drawFactors n' vol level s1 in
      (z * vol * level :: rest, s2)
  end.

Definition randomFactorsStep (cfg : Config)
    (st : gmap string (list Q) * Z) (entry : string * Asset)
    : gmap string (list Q) * Z :=
  let '(factors, seed) := st in
  let '(name, asset) := entry in
  if isBaseline asset then
    (<[name := replicate (years cfg + 1) 0]> factors, seed)
  else
    let '(fs, seed') :=
      drawFactors (years cfg + 1) (volatility asset) (volatilityLevel cfg) seed in
    (<[name := fs]> factors, seed').

Definition randomFactors (cfg : Config) (assets : AssetMap)
    : gmap string (list Q) :=
  fst (foldl (randomFactorsStep cfg) (∅, randomSeedBase cfg) assets).

(** ** Yearly rows *)

(** A trajectory is an array of rows, one per year; a row maps an asset name
    to its value.  (The row's [year] label, a string for the chart axis, is
    not a numeric cell and is left out.)  The engine reads the cells of the
    non-baseline assets in rows [0..years], which [baselineData] has written;
    a read elsewhere, [undefined] in JavaScript, is 0 here. *)
Definition getCell (sc : list (gmap string Q)) (y : nat) (name : string) : Q :=
  default 0 (sc !! y ≫= lookup name).

(** [sc[y][name] = v]; every call site has [y <= years], inside the array. *)
Definition setCell (sc : list (gmap string Q)) (y : nat) (name : string)
    (v : Q) : list (gmap string Q) :=
  alter (insert name v) y sc.

(** ** Baseline projection (baselineData, lines 176-195) *)

(** [let value = initialAmount; for (y = 1..yearIndex) value *= 1 + r/100].
    The products are exact here; the code rounds each one to a double, so
    the cent stored by [toFixed(2)] can differ from the rounding of the
    exact product where that lies next to a half cent.  The properties of
    the rows are therefore stated against the baseline cell, not against
    the exact power. *)
Definition compound (amount r : Q) (yearIndex : nat) : Q :=
  foldl (fun value _ => value * (1 + r / 100)) amount (upto 1 yearIndex).

(** Body of [Object.entries(assets).forEach] inside the year loop. *)
Definition baselineStep (cfg : Config) (yearIndex : nat)
    (dataPoint : gmap string Q) (entry : string * Asset) : gmap string Q :=
  let '(name, asset) := entry in
  if isBaseline asset then dataPoint
  else <[name := toFixed2 (compound (initialAmount cfg)
                                    (return_ asset) yearIndex)]> dataPoint.

Definition baselinePoint (cfg : Config) (assets : AssetMap) (yearIndex : nat)
    : gmap string Q :=
  foldl (baselineStep cfg yearIndex)
        {[ baselineKey := toFixed2 (initialAmount cfg) ]} assets.

Definition baselineData (cfg : Config) (assets : AssetMap)
    : list (gmap string Q) :=
  baselinePoint cfg assets <$> upto 0 (years cfg).

(** ** Scenario pipeline (scenarioData, lines 197-325) *)

Definition combinedAnnualDrag (cfg : Config) : Q :=
  (annualFees cfg + inflationRate cfg) / 100.

(** One pass of [Object.entries(assets).forEach] that rewrites the cell of
    every non-baseline asset in row [yearIndex]. *)
Definition forEachAsset (f : nat -> string -> Asset -> Q -> Q)
    (assets : AssetMap) (sc : list (gmap string Q)) (yearIndex : nat)
    : list (gmap string Q) :=
  foldl (fun sc (entry : string * Asset) =>
           let '(name, asset) := entry in
           if isBaseline asset then sc
           else setCell sc yearIndex name
                  (f yearIndex name asset (getCell sc yearIndex name)))
        sc assets.

(** Fees and inflation, lines 201-207. *)
Definition dragStage (cfg : Config) (assets : AssetMap)
    (sc : list (gmap string Q)) : list (gmap string Q) :=
  foldl (forEachAsset
           (fun yearIndex _ _ v =>
              v / Math_pow (1 + combinedAnnualDrag cfg) (ofNat yearIndex))
           assets)
        sc (upto 1 (years cfg)).

Definition recoveryExponent (cfg : Config) : Q :=
  if String.eqb (recoveryType cfg) "V_SHAPED" then 5 # 10
  else if String.eqb (recoveryType cfg) "U_SHAPED" then 15 # 10
  else 3.

Definition recoveryTarget (cfg : Config) (baseline : list (gmap string Q))
    (name : string) (asset : Asset) (y : nat) : Q :=
  let yearValueNoCrisisAdjusted :=
    getCell baseline y name / Math_pow (1 + combinedAnnualDrag cfg) (ofNat y) in
  yearValueNoCrisisAdjusted * permanentDamageRatio cfg asset.

(** Body of the loop [for (let y = 2; y <= years; y++)], lines 244-272. *)
Definition crisisYear (cfg : Config) (baseline : list (gmap string Q))
    (name : string) (asset : Asset) (sc : list (gmap string Q)) (y : nat)
    : list (gmap string Q) :=
  let reducedReturn := return_ asset * permanentDamageRatio cfg asset in
  let target := recoveryTarget cfg baseline name asset y in
  let drawdownValue := getCell sc 1 name in
  if Qle_bool (ofNat y) (recoveryYears cfg + 1) then
    let progress := (ofNat y - 1) / recoveryYears cfg in
    let recoveryFactor := Math_pow progress (recoveryExponent cfg) in
    setCell sc y name
      (Qmin (drawdownValue + (target - drawdownValue) * recoveryFactor) target)
  else
    let sc' :=
      setCell sc y name (getCell sc (y - 1) name * (1 + reducedReturn / 100)) in
    if Qltb target (getCell sc' y name) then setCell sc' y name target else sc'.

(** Body of [Object.entries(assets).forEach] of the crisis block. *)
Definition crisisAsset (cfg : Config) (baseline : list (gmap string Q))
    (sc : list (gmap string Q)) (entry : string * Asset)
    : list (gmap string Q) :=
  let '(name, asset) := entry in
  if isBaseline asset then sc
  else
    let sc1 :=
      if (1 <=? years cfg)%nat
      then setCell sc 1 name
             (getCell sc 1 name * (1 - drawdownImpactDecimal cfg asset))
      else sc in
    foldl (crisisYear cfg baseline name asset) sc1 (upto 2 (years cfg)).

Definition crisisActive (cfg : Config) : bool :=
  enableRisk cfg && negb (String.eqb (crisisType cfg) "NONE").

Definition crisisStage (cfg : Config) (assets : AssetMap)
    (baseline sc : list (gmap string Q)) : list (gmap string Q) :=
  if crisisActive cfg then foldl (crisisAsset cfg baseline) sc assets else sc.

(** [randomFactors[name][yearIndex]] *)
Definition factorAt (factors : gmap string (list Q)) (name : string)
    (yearIndex : nat) : Q :=
  default 0 (factors !! name ≫= lookup yearIndex).

(** Volatility, lines 276-289. *)
Definition volatilityStage (cfg : Config) (assets : AssetMap)
    (factors : gmap string (list Q)) (sc : list (gmap string Q))
    : list (gmap string Q) :=
  if enableVolatility cfg then
    foldl (forEachAsset
             (fun yearIndex name _ v =>
                toFixed2 (v * (1 + factorAt factors name yearIndex)))
             assets)
          sc (upto 1 (years cfg))
  else sc.

(** The yearly rows returned as [scenarioData.data]. *)
Definition scenarioRows (cfg : Config) (assets : AssetMap)
    (baseline : list (gmap string Q)) (factors : gmap string (list Q))
    : list (gmap string Q) :=
  volatilityStage cfg assets factors
    (crisisStage cfg assets baseline (dragStage cfg assets baseline)).

(** ** Summary metrics (scenarioData, lines 291-323) *)

Record Metrics := mkMetrics {
  cagr : Q;
  realizedVolatility : Q;
  maxDrawdown : Q
}.

(** One round of the loop of lines 309-316 on the pair [(maxDrawdown, peak)]. *)
Definition drawdownStep (sc : list (gmap string Q)) (name : string)
    (st : Q * Q) (y : nat) : Q * Q :=
  let '(maxDD, peak) := st in
  let currentValue := getCell sc y name in
  let peak' := if Qltb peak currentValue then currentValue else peak in
  let dd := (peak' - currentValue) / peak' * 100 in
  (Qmax maxDD dd, peak').

Definition maxDrawdownLoop (sc : list (gmap string Q)) (name : string)
    (nyears : nat) : Q * Q :=
  foldl (drawdownStep sc name) (0, getCell sc 0 name) (upto 1 nyears).

(** The [maxDrawdown] field stored in [summaryMetrics[name]]. *)
Definition maxDrawdownMetric (sc : list (gmap string Q)) (name : string)
    (nyears : nat) : Q :=
  toFixed2 (fst (maxDrawdownLoop sc name nyears)).

Definition yearReturns (sc : list (gmap string Q)) (name : string)
    (nyears : nat) : list Q :=
  (fun y => (getCell sc y name - getCell sc (y - 1) name)
            / getCell sc (y - 1) name) <$> upto 1 nyears.

Definition assetMetrics (sc : list (gmap string Q)) (name : string)
    (nyears : nat) : Metrics :=
  let startValue := getCell sc 0 name in
  let endValue := getCell sc nyears name in
  let cagr := (Math_pow (endValue / startValue) (1 / ofNat nyears) - 1) * 100 in
  let returns := yearReturns sc name nyears in
  let count := ofNat (length returns) in
  let meanReturn := foldl Qplus 0 returns / count in
  let variance :=
    foldl (fun a b => a + Math_pow (b - meanReturn) 2) 0 returns / count in
  let vol := Math_sqrt variance * 100 in
  mkMetrics (toFixed2 cagr) (toFixed2 vol) (maxDrawdownMetric sc name nyears).

Definition summaryMetrics (cfg : Config) (assets : AssetMap)
    (sc : list (gmap string Q)) : gmap string Metrics :=
  foldl (fun (m : gmap string Metrics) (entry : string * Asset) =>
           let '(name, asset) := entry in
           if isBaseline asset then m
           else <[name := assetMetrics sc name (years cfg)]> m)
        ∅ assets.

(** [scenarioData]: [{ data: scenario, metrics: summaryMetrics }]. *)
Definition scenarioData (cfg : Config) (assets : AssetMap)
    (baseline : list (gmap string Q)) (factors : gmap string (list Q))
    : list (gmap string Q) * gmap string Metrics :=
  let scenario := scenarioRows cfg assets baseline factors in
  (scenario, summaryMetrics cfg assets scenario).

(** The component's derived values: each memo fed with the ones it reads. *)
Definition simulate (cfg : Config) (assets : AssetMap)
    : list (gmap string Q) * gmap string Metrics :=
  scenarioData cfg assets (baselineData cfg assets) (randomFactors cfg assets).

(** What the loop body of lines 244-272 stores for year [y], as a function
    of the year-1 value and of the value of the year before. *)
Definition crisisValue (cfg : Config) (baseline : list (gmap string Q))
    (name : string) (asset : Asset) (drawdownValue previous : Q) (y : nat)
    : Q :=
  let target := recoveryTarget cfg baseline name asset y in
  if Qle_bool (ofNat y) (recoveryYears cfg + 1) then
    Qmin (drawdownValue
          + (target - drawdownValue)
            * Math_pow ((ofNat y - 1) / recoveryYears cfg)
                       (recoveryExponent cfg))
         target
  else
    Qmin (previous
          * (1 + return_ asset * permanentDamageRatio cfg asset / 100))
         target.

(** The loss of year [y] against the start value, in percent. *)
Definition lossFromStart (sc : list (gmap string Q)) (name : string)
    (y : nat) : Q :=
  (getCell sc 0 name - getCell sc y name) / getCell sc 0 name * 100.

(** The names whose cells the stages rewrite: the non-baseline assets. *)
Definition tracked (assets : AssetMap) (n : string) : Prop :=
  ∃ a, (n, a) ∈ assets ∧ isBaseline a = false.

(** ** Facts about cells and the per-row pass *)

Lemma length_setCell sc y n v : length (setCell sc y n v) = length sc.
Proof. apply length_alter. Qed.

Lemma getCell_setCell_same sc y n v :
  (y < length sc)%nat → getCell (setCell sc y n v) y n = v.
Proof.
  intros Hy. unfold getCell, setCell. rewrite list_lookup_alter_eq.
  destruct (lookup_lt_is_Some_2 sc y Hy) as [row Hrow].
  rewrite Hrow. simpl. by rewrite lookup_insert_eq.
Qed.

Lemma getCell_setCell_other sc y n v y' n' :
  y ≠ y' ∨ n ≠ n' → getCell (setCell sc y n v) y' n' = getCell sc y' n'.
Proof.
  intros Hne. unfold getCell, setCell.
  destruct (decide (y = y')) as [->|Hy].
  - rewrite list_lookup_alter_eq.
    destruct (sc !! y') as [row|]; simpl; [|done].
    rewrite lookup_insert_ne; [done|]. destruct Hne; congruence.
  - by rewrite list_lookup_alter_ne.
Qed.

Lemma tracked_cons_inv k b rest n :
  ¬ tracked ((k, b) :: rest) n →
  (isBaseline b = false → k ≠ n) ∧ ¬ tracked rest n.
Proof.
  intros Hn. split.
  - intros Hb ->. apply Hn. exists b. split; [left|done].
  - intros (a & Hin & Ha). apply Hn. exists a. split; [by right|done].
Qed.

Lemma forEachAsset_cons f k b rest sc yi :
  forEachAsset f ((k, b) :: rest) sc yi =
  forEachAsset f rest
    (if isBaseline b then sc
     else setCell sc yi k (f yi k b (getCell sc yi k))) yi.
Proof. reflexivity. Qed.

Lemma length_forEachAsset f assets sc yi :
  length (forEachAsset f assets sc yi) = length sc.
Proof.
  revert sc. induction assets as [|[k b] rest IH]; intros sc; [done|].
  rewrite forEachAsset_cons, IH. destruct (isBaseline b); [done|].
  apply length_setCell.
Qed.

Lemma forEachAsset_other_row f assets sc yi y n :
  y ≠ yi → getCell (forEachAsset f assets sc yi) y n = getCell sc y n.
Proof.
  intros Hy. revert sc. induction assets as [|[k b] rest IH]; intros sc; [done|].
  rewrite forEachAsset_cons, IH. destruct (isBaseline b); [done|].
  apply getCell_setCell_other. left. congruence.
Qed.

Lemma forEachAsset_untracked f assets sc yi y n :
  ¬ tracked assets n →
  getCell (forEachAsset f assets sc yi) y n = getCell sc y n.
Proof.
  revert sc. induction assets as [|[k b] rest IH]; intros sc Hn; [done|].
  apply tracked_cons_inv in Hn as [Hk Hrest].
  rewrite forEachAsset_cons, IH by done.
  destruct (isBaseline b); [done|].
  apply getCell_setCell_other. right. by apply Hk.
Qed.

Lemma untracked_fresh (assets : AssetMap) n : n ∉ names assets → ¬ tracked assets n.
Proof.
  intros Hn (a & Hin & _). apply Hn. unfold names.
  apply list_elem_of_fmap. by exists (n, a).
Qed.

Lemma forEachAsset_tracked f assets sc yi n a :
  NoDup (names assets) → (n, a) ∈ assets → isBaseline a = false →
  (yi < length sc)%nat →
  getCell (forEachAsset f assets sc yi) yi n = f yi n a (getCell sc yi n).
Proof.
  revert sc. induction assets as [|[k b] rest IH]; intros sc Hnd Hin Ha Hlen.
  { by apply elem_of_nil in Hin. }
  unfold names in Hnd. simpl in Hnd. apply NoDup_cons in Hnd as [Hk Hnd].
  rewrite forEachAsset_cons.
  apply elem_of_cons in Hin as [Heq|Hin].
  - injection Heq as <- <-. rewrite Ha.
    rewrite forEachAsset_untracked by (by apply untracked_fresh).
    by apply getCell_setCell_same.
  - assert (k ≠ n) as Hkn.
    { intros ->. apply Hk. apply list_elem_of_fmap. by exists (n, a). }
    rewrite (IH _ Hnd Hin Ha).
    + destruct (isBaseline b); [done|].
      f_equal. apply getCell_setCell_other. by right.
    + destruct (isBaseline b); [done|]. by rewrite length_setCell.
Qed.

(** The same pass repeated over a list of rows, as the drag and volatility
    loops do. *)
Lemma length_rowsFold f assets ys sc :
  length (foldl (forEachAsset f assets) sc ys) = length sc.
Proof.
  revert sc. induction ys as [|y0 ys IH]; intros sc; [done|].
  simpl. by rewrite IH, length_forEachAsset.
Qed.

Lemma rowsFold_untracked f assets ys sc y n :
  ¬ tracked assets n →
  getCell (foldl (forEachAsset f assets) sc ys) y n = getCell sc y n.
Proof.
  intros Hn. revert sc. induction ys as [|y0 ys IH]; intros sc; [done|].
  simpl. by rewrite IH, forEachAsset_untracked.
Qed.

Lemma rowsFold_other_row f assets ys sc y n :
  y ∉ ys →
  getCell (foldl (forEachAsset f assets) sc ys) y n = getCell sc y n.
Proof.
  revert sc. induction ys as [|y0 ys IH]; intros sc Hy; [done|].
  apply not_elem_of_cons in Hy as [Hy0 Hy].
  simpl. by rewrite IH, forEachAsset_other_row.
Qed.

Lemma rowsFold_tracked f assets ys sc y n a :
  NoDup (names assets) → NoDup ys → y ∈ ys →
  (n, a) ∈ assets → isBaseline a = false → (y < length sc)%nat →
  getCell (foldl (forEachAsset f assets) sc ys) y n = f y n a (getCell sc y n).
Proof.
  intros Hnd. revert sc.
  induction ys as [|y0 ys IH]; intros sc Hys Hy Hin Ha Hlen.
  { by apply elem_of_nil in Hy. }
  apply NoDup_cons in Hys as [Hy0 Hys]. simpl.
  apply elem_of_cons in Hy as [->|Hy].
  - rewrite rowsFold_other_row by done. by apply forEachAsset_tracked.
  - rewrite IH; try done.
    + rewrite forEachAsset_other_row; [done|]. intros ->. by apply Hy0.
    + by rewrite length_forEachAsset.
Qed.

(** ** Facts about numbers *)

Lemma upto_1 n : upto 1 n = seq 1 n.
Proof. unfold upto. f_equal. lia. Qed.

Lemma elem_of_upto first last y :
  y ∈ upto first last ↔ (first ≤ y ≤ last)%nat.
Proof. unfold upto. rewrite elem_of_seq. lia. Qed.

Lemma NoDup_upto first last : NoDup (upto first last).
Proof. apply NoDup_seq. Qed.

Lemma Qpower_nat_succ (b : Q) (n : nat) :
  b ^ Z.of_nat (S n) == b ^ Z.of_nat n * b.
Proof.
  rewrite Nat2Z.inj_succ. unfold Z.succ.
  rewrite Qpower_plus' by lia. by rewrite Qpower_1_r.
Qed.

(** Iterative compounding is the power in exact arithmetic. *)
Lemma compound_power amount r (y : nat) :
  compound amount r y == amount * (1 + r / 100) ^ Z.of_nat y.
Proof.
  unfold compound. rewrite upto_1.
  induction y as [|y IH].
  - cbn [seq foldl Z.of_nat]. rewrite Qpower_0_r. ring.
  - rewrite seq_S, foldl_app. cbn [foldl].
    rewrite IH, Qpower_nat_succ. ring.
Qed.

Lemma Math_pow_nat (b : Q) (n : nat) : Math_pow b (ofNat n) = b ^ Z.of_nat n.
Proof.
  unfold Math_pow, ofNat.
  rewrite Qred_identity by (simpl; apply Z.gcd_1_r). reflexivity.
Qed.

Lemma Qle_bool_comp x x' y y' :
  x == x' → y == y' → Qle_bool x y = Qle_bool x' y'.
Proof.
  intros Hx Hy. apply eq_true_iff_eq.
  rewrite !Qle_bool_iff, Hx, Hy. reflexivity.
Qed.

Lemma toFixed2_comp x y : x == y → toFixed2 x == toFixed2 y.
Proof.
  intros Hxy. unfold toFixed2, Qltb.
  assert (Qabs x == Qabs y) as Habs by (rewrite Hxy; reflexivity).
  rewrite (Qle_bool_comp _ (inject_Z (10 ^ 21)) (Qabs x) (Qabs y))
    by (done || reflexivity).
  rewrite (Qle_bool_comp 0 0 x y) by (done || reflexivity).
  destruct (Qle_bool _ (Qabs y)); [done|].
  destruct (Qle_bool 0 y); cbn [negb]; rewrite Hxy; reflexivity.
Qed.

Lemma Qfloor_half (c : Z) : Qfloor (inject_Z c + (1 # 2)) = c.
Proof.
  unfold Qfloor, Qplus, inject_Z. cbn [Qnum Qden].
  symmetry. apply Z.div_unique with 1%Z; lia.
Qed.

(** An amount that is a whole number of cents is its own rounding. *)
Lemma toFixed2_cents (x : Q) (c : Z) :
  x == inject_Z c / 100 → toFixed2 x == x.
Proof.
  intros Hx. unfold toFixed2.
  destruct (Qle_bool _ (Qabs x)); [reflexivity|].
  destruct (Qltb x 0).
  - assert (- x * 100 + (1 # 2) == inject_Z (- c) + (1 # 2)) as ->.
    { rewrite Hx, inject_Z_opp. field. }
    rewrite Qfloor_half, Hx, inject_Z_opp. field.
  - assert (x * 100 + (1 # 2) == inject_Z c + (1 # 2)) as ->.
    { rewrite Hx. field. }
    rewrite Qfloor_half, Hx. reflexivity.
Qed.

(** ** Facts about the baseline rows *)

Lemma length_baselineData cfg assets :
  length (baselineData cfg assets) = S (years cfg).
Proof.
  unfold baselineData, upto. rewrite length_fmap, length_seq. lia.
Qed.

Lemma baselineData_lookup cfg assets y :
  (y ≤ years cfg)%nat →
  baselineData cfg assets !! y = Some (baselinePoint cfg assets y).
Proof.
  intros Hy. unfold baselineData, upto.
  rewrite list_lookup_fmap, lookup_seq_lt by lia. reflexivity.
Qed.

Lemma baselineFold_untracked cfg yi assets (dp : gmap string Q) n :
  ¬ tracked assets n →
  foldl (baselineStep cfg yi) dp assets !! n = dp !! n.
Proof.
  revert dp. induction assets as [|[k b] rest IH]; intros dp Hn; [done|].
  apply tracked_cons_inv in Hn as [Hk Hrest].
  simpl. rewrite IH by done.
  destruct (isBaseline b); [done|]. apply lookup_insert_ne. by apply Hk.
Qed.

Lemma baselineFold_tracked cfg yi assets (dp : gmap string Q) n a :
  NoDup (names assets) → (n, a) ∈ assets → isBaseline a = false →
  foldl (baselineStep cfg yi) dp assets !! n
  = Some (toFixed2 (compound (initialAmount cfg) (return_ a) yi)).
Proof.
  revert dp. induction assets as [|[k b] rest IH]; intros dp Hnd Hin Ha.
  { by apply elem_of_nil in Hin. }
  unfold names in Hnd. simpl in Hnd. apply NoDup_cons in Hnd as [Hk Hnd].
  apply elem_of_cons in Hin as [Heq|Hin].
  - injection Heq as <- <-. simpl. rewrite Ha.
    rewrite baselineFold_untracked by (by apply untracked_fresh).
    apply lookup_insert_eq.
  - simpl. by apply IH.
Qed.

(** The cell of a non-baseline asset in the baseline rows. *)
Lemma baselineData_tracked cfg assets y n a :
  NoDup (names assets) → (n, a) ∈ assets → isBaseline a = false →
  (y ≤ years cfg)%nat →
  getCell (baselineData cfg assets) y n
  = toFixed2 (compound (initialAmount cfg) (return_ a) y).
Proof.
  intros Hnd Hin Ha Hy. unfold getCell.
  rewrite baselineData_lookup by done. simpl.
  unfold baselinePoint. by rewrite (baselineFold_tracked _ _ _ _ n a).
Qed.

(** The cell written under the fixed baseline key survives when no
    non-baseline asset carries that name. *)
Lemma baselineData_baselineKey cfg assets y :
  ¬ tracked assets baselineKey → (y ≤ years cfg)%nat →
  getCell (baselineData cfg assets) y baselineKey
  = toFixed2 (initialAmount cfg).
Proof.
  intros Hn Hy. unfold getCell.
  rewrite baselineData_lookup by done. simpl.
  unfold baselinePoint. rewrite baselineFold_untracked by done.
  by rewrite lookup_singleton_eq.
Qed.

(** ** Facts about the stages *)

Lemma length_dragStage cfg assets sc :
  length (dragStage cfg assets sc) = length sc.
Proof. apply length_rowsFold. Qed.

Lemma dragStage_untracked cfg assets sc y n :
  ¬ tracked assets n → getCell (dragStage cfg assets sc) y n = getCell sc y n.
Proof. apply rowsFold_untracked. Qed.

Lemma dragStage_row0 cfg assets sc n :
  getCell (dragStage cfg assets sc) 0 n = getCell sc 0 n.
Proof. apply rowsFold_other_row. rewrite elem_of_upto. lia. Qed.

Lemma dragStage_tracked cfg assets sc y n a :
  NoDup (names assets) → (n, a) ∈ assets → isBaseline a = false →
  (1 ≤ y ≤ years cfg)%nat → (y < length sc)%nat →
  getCell (dragStage cfg assets sc) y n
  = getCell sc y n / (1 + combinedAnnualDrag cfg) ^ Z.of_nat y.
Proof.
  intros Hnd Hin Ha Hy Hlen. unfold dragStage.
  rewrite (rowsFold_tracked _ assets _ sc y n a); try done.
  - by rewrite Math_pow_nat.
  - apply NoDup_upto.
  - by apply elem_of_upto.
Qed.

Lemma length_volatilityStage cfg assets factors sc :
  length (volatilityStage cfg assets factors sc) = length sc.
Proof.
  unfold volatilityStage. destruct (enableVolatility cfg); [|done].
  apply length_rowsFold.
Qed.

Lemma volatilityStage_untracked cfg assets factors sc y n :
  ¬ tracked assets n →
  getCell (volatilityStage cfg assets factors sc) y n = getCell sc y n.
Proof.
  intros Hn. unfold volatilityStage. destruct (enableVolatility cfg); [|done].
  by apply rowsFold_untracked.
Qed.

Lemma volatilityStage_off cfg assets factors sc :
  enableVolatility cfg = false → volatilityStage cfg assets factors sc = sc.
Proof. intros H. unfold volatilityStage. by rewrite H. Qed.

Lemma length_crisisYear cfg bl name a sc y :
  length (crisisYear cfg bl name a sc y) = length sc.
Proof.
  unfold crisisYear. repeat case_match; by rewrite ?length_setCell.
Qed.

Lemma crisisYear_other cfg bl name a sc y y' n' :
  y ≠ y' ∨ name ≠ n' →
  getCell (crisisYear cfg bl name a sc y) y' n' = getCell sc y' n'.
Proof.
  intros Hne. unfold crisisYear.
  repeat case_match; by rewrite ?getCell_setCell_other.
Qed.

Lemma length_crisisYears cfg bl name a ys sc :
  length (foldl (crisisYear cfg bl name a) sc ys) = length sc.
Proof.
  revert sc. induction ys as [|y0 ys IH]; intros sc; [done|].
  simpl. by rewrite IH, length_crisisYear.
Qed.

Lemma crisisYears_other cfg bl name a ys sc y' n' :
  y' ∉ ys ∨ name ≠ n' →
  getCell (foldl (crisisYear cfg bl name a) sc ys) y' n' = getCell sc y' n'.
Proof.
  revert sc. induction ys as [|y0 ys IH]; intros sc Hne; [done|].
  simpl. rewrite IH, crisisYear_other; [done| |].
  - destruct Hne as [Hy|Hn]; [left|by right].
    intros ->. apply Hy. left.
  - destruct Hne as [Hy|Hn]; [left|by right].
    intros Hin. apply Hy. by right.
Qed.

Lemma length_crisisAsset cfg bl sc entry :
  length (crisisAsset cfg bl sc entry) = length sc.
Proof.
  destruct entry as [k b]. unfold crisisAsset.
  destruct (isBaseline b); [done|].
  rewrite length_crisisYears. case_match; by rewrite ?length_setCell.
Qed.

Lemma crisisAsset_other cfg bl sc k b y n :
  k ≠ n → getCell (crisisAsset cfg bl sc (k, b)) y n = getCell sc y n.
Proof.
  intros Hne. unfold crisisAsset. destruct (isBaseline b); [done|].
  rewrite crisisYears_other by (by right).
  case_match; [|done]. apply getCell_setCell_other. by right.
Qed.

Lemma length_crisisFold cfg bl assets sc :
  length (foldl (crisisAsset cfg bl) sc assets) = length sc.
Proof.
  revert sc. induction assets as [|e rest IH]; intros sc; [done|].
  simpl. by rewrite IH, length_crisisAsset.
Qed.

Lemma crisisFold_untracked cfg bl assets sc y n :
  ¬ tracked assets n →
  getCell (foldl (crisisAsset cfg bl) sc assets) y n = getCell sc y n.
Proof.
  revert sc. induction assets as [|[k b] rest IH]; intros sc Hn; [done|].
  apply tracked_cons_inv in Hn as [Hk Hrest].
  cbn [foldl]. rewrite IH by done.
  destruct (isBaseline b) eqn:Hb.
  - unfold crisisAsset. by rewrite Hb.
  - apply crisisAsset_other. by apply Hk.
Qed.

Lemma length_crisisStage cfg assets bl sc :
  length (crisisStage cfg assets bl sc) = length sc.
Proof.
  unfold crisisStage. destruct (crisisActive cfg); [|done].
  apply length_crisisFold.
Qed.

Lemma crisisStage_untracked cfg assets bl sc y n :
  ¬ tracked assets n →
  getCell (crisisStage cfg assets bl sc) y n = getCell sc y n.
Proof.
  intros Hn. unfold crisisStage. destruct (crisisActive cfg); [|done].
  by apply crisisFold_untracked.
Qed.

Lemma crisisStage_off cfg assets bl sc :
  enableRisk cfg = false → crisisStage cfg assets bl sc = sc.
Proof. intros H. unfold crisisStage, crisisActive. by rewrite H. Qed.

Lemma crisisActive_on cfg :
  enableRisk cfg = true → crisisType cfg ≠ "NONE"%string →
  crisisActive cfg = true.
Proof.
  intros Hr Ht. unfold crisisActive. rewrite Hr. simpl.
  apply negb_true_iff. by apply String.eqb_neq.
Qed.

Lemma assets_functional (assets : AssetMap) k x y :
  NoDup (names assets) → (k, x) ∈ assets → (k, y) ∈ assets → x = y.
Proof.
  intros Hnd Hx Hy.
  induction assets as [|[k' z] rest IH]; [by apply elem_of_nil in Hx|].
  unfold names in Hnd. simpl in Hnd. apply NoDup_cons in Hnd as [Hk Hnd].
  apply elem_of_cons in Hx as [Hx|Hx]; apply elem_of_cons in Hy as [Hy|Hy].
  - congruence.
  - injection Hx as <- <-. exfalso. apply Hk.
    apply list_elem_of_fmap. by exists (k, y).
  - injection Hy as <- <-. exfalso. apply Hk.
    apply list_elem_of_fmap. by exists (k, x).
  - by apply IH.
Qed.

(** A baseline asset keyed by the fixed baseline key leaves that key
    untracked. *)
Lemma baselineKey_untracked assets a :
  NoDup (names assets) → (baselineKey, a) ∈ assets → isBaseline a = true →
  ¬ tracked assets baselineKey.
Proof.
  intros Hnd Hin Ha (b & Hin' & Hb).
  assert (a = b) as -> by (by apply (assets_functional assets baselineKey)).
  congruence.
Qed.

(** ** The crisis block, asset by asset *)

(** What holds of one asset's column after the crisis block: the assets
    walked before it keep [Pre], its own pass turns [Pre] into [Post], and
    the assets walked after it keep [Post]. *)
Lemma crisisFold_own (Pre Post : list (gmap string Q) → Prop)
    cfg bl assets n a :
  NoDup (names assets) → (n, a) ∈ assets →
  (∀ sc k b, k ≠ n → Pre sc → Pre (crisisAsset cfg bl sc (k, b))) →
  (∀ sc k b, k ≠ n → Post sc → Post (crisisAsset cfg bl sc (k, b))) →
  (∀ sc, Pre sc → Post (crisisAsset cfg bl sc (n, a))) →
  ∀ sc, Pre sc → Post (foldl (crisisAsset cfg bl) sc assets).
Proof.
  intros Hnd Hin HPre HPost Hown.
  induction assets as [|[k b] rest IH]; intros sc Hsc.
  { by apply elem_of_nil in Hin. }
  unfold names in Hnd. simpl in Hnd. apply NoDup_cons in Hnd as [Hk Hnd].
  cbn [foldl]. apply elem_of_cons in Hin as [Heq|Hin].
  - injection Heq as <- <-. apply Hown in Hsc.
    clear IH Hown HPre Hnd. revert Hsc.
    generalize (crisisAsset cfg bl sc (n, a)). clear sc.
    induction rest as [|[k' b'] rest IH]; intros sc Hsc; [done|].
    cbn [foldl]. apply IH.
    + intros Hn. apply Hk. simpl. by right.
    + apply HPost; [|done]. intros ->. apply Hk. simpl. left.
  - apply IH; try done. apply HPre; [|done].
    intros ->. apply Hk. apply list_elem_of_fmap. by exists (n, a).
Qed.

Lemma Qltb_false x y : Qltb x y = false → y <= x.
Proof.
  unfold Qltb. intros H. apply negb_false_iff in H. by apply Qle_bool_iff.
Qed.

Lemma crisisYear_bound cfg bl name a sc y :
  (y < length sc)%nat →
  getCell (crisisYear cfg bl name a sc y) y name
  <= recoveryTarget cfg bl name a y.
Proof.
  intros Hy. unfold crisisYear.
  destruct (Qle_bool (ofNat y) (recoveryYears cfg + 1)).
  - rewrite getCell_setCell_same by done. apply Q.le_min_r.
  - destruct (Qltb _ _) eqn:Hcap.
    + rewrite getCell_setCell_same by (by rewrite length_setCell).
      apply Qle_refl.
    + by apply Qltb_false.
Qed.

Lemma crisisYears_bound cfg bl name a ys sc y :
  NoDup ys → y ∈ ys → (y < length sc)%nat →
  getCell (foldl (crisisYear cfg bl name a) sc ys) y name
  <= recoveryTarget cfg bl name a y.
Proof.
  revert sc. induction ys as [|y0 ys IH]; intros sc Hnd Hin Hlen.
  { by apply elem_of_nil in Hin. }
  apply NoDup_cons in Hnd as [Hy0 Hnd]. cbn [foldl].
  apply elem_of_cons in Hin as [->|Hin].
  - rewrite crisisYears_other by (by left). by apply crisisYear_bound.
  - apply IH; try done. by rewrite length_crisisYear.
Qed.

Lemma crisisAsset_bound cfg bl sc name a y :
  isBaseline a = false → (2 ≤ y ≤ years cfg)%nat → (y < length sc)%nat →
  getCell (crisisAsset cfg bl sc (name, a)) y name
  <= recoveryTarget cfg bl name a y.
Proof.
  intros Ha Hy Hlen. unfold crisisAsset. rewrite Ha.
  apply crisisYears_bound.
  - apply NoDup_upto.
  - by apply elem_of_upto.
  - case_match; by rewrite ?length_setCell.
Qed.

Lemma crisisAsset_year1 cfg bl sc name a :
  isBaseline a = false → (1 ≤ years cfg)%nat → (1 < length sc)%nat →
  getCell (crisisAsset cfg bl sc (name, a)) 1 name
  = getCell sc 1 name * (1 - drawdownImpactDecimal cfg a).
Proof.
  intros Ha Hy Hlen. unfold crisisAsset. rewrite Ha.
  rewrite crisisYears_other by (left; rewrite elem_of_upto; lia).
  destruct (Nat.leb_spec 1 (years cfg)); [|lia].
  by apply getCell_setCell_same.
Qed.

(** The cell after the crisis block never exceeds the year's target. *)
Lemma crisisStage_bound cfg assets bl sc name a y :
  crisisActive cfg = true →
  NoDup (names assets) → (name, a) ∈ assets → isBaseline a = false →
  (2 ≤ y ≤ years cfg)%nat → length sc = S (years cfg) →
  getCell (crisisStage cfg assets bl sc) y name
  <= recoveryTarget cfg bl name a y.
Proof.
  intros Hact Hnd Hin Ha Hy Hlen. unfold crisisStage. rewrite Hact.
  apply (crisisFold_own
           (λ sc, length sc = S (years cfg))
           (λ sc, getCell sc y name <= recoveryTarget cfg bl name a y)
           cfg bl assets name a); try done.
  - intros sc' k b _ H. by rewrite length_crisisAsset.
  - intros sc' k b Hk H. by rewrite crisisAsset_other.
  - intros sc' H. apply crisisAsset_bound; [done|done|lia].
Qed.

(** The year-1 cell after the crisis block: the shock applied once. *)
Lemma crisisStage_year1 cfg assets bl sc name a :
  crisisActive cfg = true →
  NoDup (names assets) → (name, a) ∈ assets → isBaseline a = false →
  (1 ≤ years cfg)%nat → length sc = S (years cfg) →
  getCell (crisisStage cfg assets bl sc) 1 name
  = getCell sc 1 name * (1 - drawdownImpactDecimal cfg a).
Proof.
  intros Hact Hnd Hin Ha Hy Hlen. unfold crisisStage. rewrite Hact.
  apply (crisisFold_own
           (λ sc', length sc' = S (years cfg)
                   ∧ getCell sc' 1 name = getCell sc 1 name)
           (λ sc', getCell sc' 1 name
                   = getCell sc 1 name * (1 - drawdownImpactDecimal cfg a))
           cfg bl assets name a); try done.
  - intros sc' k b Hk [H1 H2]. split.
    + by rewrite length_crisisAsset.
    + by rewrite crisisAsset_other.
  - intros sc' k b Hk H. by rewrite crisisAsset_other.
  - intros sc' [H1 H2]. rewrite crisisAsset_year1; [by rewrite H2|done|done|lia].
Qed.

(** ** Rounding to cents *)

Lemma toFixed2_large x :
  Qle_bool (inject_Z (10 ^ 21)) (Qabs x) = true → toFixed2 x = x.
Proof. intros H. unfold toFixed2. by rewrite H. Qed.

Lemma toFixed2_small_nonneg x :
  Qle_bool (inject_Z (10 ^ 21)) (Qabs x) = false → 0 <= x →
  toFixed2 x = inject_Z (Qfloor (x * 100 + (1 # 2))) / 100.
Proof.
  intros H Hx. unfold toFixed2, Qltb. rewrite H.
  apply Qle_bool_iff in Hx. by rewrite Hx.
Qed.

Lemma toFixed2_small_neg x :
  Qle_bool (inject_Z (10 ^ 21)) (Qabs x) = false → x < 0 →
  toFixed2 x = - (inject_Z (Qfloor (- x * 100 + (1 # 2))) / 100).
Proof.
  intros H Hx. unfold toFixed2, Qltb. rewrite H.
  destruct (Qle_bool 0 x) eqn:E; [|done].
  apply Qle_bool_iff in E. exfalso. by apply (Qle_not_lt 0 x).
Qed.

Lemma Qfloor_bounds q :
  inject_Z (Qfloor q) <= q ∧ q < inject_Z (Qfloor q) + 1.
Proof.
  split; [apply Qfloor_le|].
  pose proof (Qlt_floor q) as H. by rewrite inject_Z_plus in H.
Qed.

Lemma toFixed2_idempotent x : toFixed2 (toFixed2 x) == toFixed2 x.
Proof.
  destruct (Qle_bool (inject_Z (10 ^ 21)) (Qabs x)) eqn:E.
  - rewrite (toFixed2_large x E). rewrite (toFixed2_large x E). reflexivity.
  - destruct (Qlt_le_dec x 0) as [Hneg|Hpos].
    + rewrite (toFixed2_small_neg x) by done.
      apply (toFixed2_cents _ (- Qfloor (- x * 100 + (1 # 2)))).
      rewrite inject_Z_opp. field.
    + rewrite (toFixed2_small_nonneg x) by done.
      by apply (toFixed2_cents _ (Qfloor (x * 100 + (1 # 2)))).
Qed.

Lemma big_small_abs x :
  Qle_bool (inject_Z (10 ^ 21)) (Qabs x) = false →
  - inject_Z (10 ^ 21) < x ∧ x < inject_Z (10 ^ 21).
Proof.
  intros E. apply Qabs_Qlt_condition. apply Qnot_le_lt. intros H.
  apply Qle_bool_iff in H. congruence.
Qed.

Lemma big_large_abs x :
  Qle_bool (inject_Z (10 ^ 21)) (Qabs x) = true →
  x <= - inject_Z (10 ^ 21) ∨ inject_Z (10 ^ 21) <= x.
Proof.
  intros E. apply Qle_bool_iff in E.
  destruct (Qlt_le_dec x 0) as [Hneg|Hpos].
  - left. rewrite Qabs_neg in E by (by apply Qlt_le_weak). lra.
  - right. by rewrite Qabs_pos in E.
Qed.

Lemma Qfloor_nonneg q : 0 <= q → 0 <= inject_Z (Qfloor q).
Proof.
  intros H. change 0 with (inject_Z 0). rewrite <- Zle_Qle.
  change 0%Z with (Qfloor 0). by apply Qfloor_resp_le.
Qed.

Lemma Qfloor_below_big q :
  q <= inject_Z (10 ^ 23) + (1 # 2) →
  inject_Z (Qfloor q) <= 100 * inject_Z (10 ^ 21).
Proof.
  intros H. apply Qfloor_resp_le in H. rewrite Qfloor_half in H.
  rewrite Zle_Qle in H. eapply Qle_trans; [exact H|].
  vm_compute. discriminate.
Qed.

Lemma toFixed2_small_bounds x :
  Qle_bool (inject_Z (10 ^ 21)) (Qabs x) = false →
  - inject_Z (10 ^ 21) <= toFixed2 x ∧ toFixed2 x <= inject_Z (10 ^ 21)
  ∧ (0 <= x → 0 <= toFixed2 x) ∧ (x < 0 → toFixed2 x <= 0).
Proof.
  intros E. destruct (big_small_abs x E) as [Hlo Hhi].
  assert (inject_Z (10 ^ 23) == 100 * inject_Z (10 ^ 21)) as H23 by reflexivity.
  assert (0 <= inject_Z (10 ^ 21)) as HT by discriminate.
  destruct (Qlt_le_dec x 0) as [Hneg|Hpos].
  - rewrite toFixed2_small_neg by done.
    pose proof (Qfloor_nonneg (- x * 100 + (1 # 2))) as H0.
    pose proof (Qfloor_below_big (- x * 100 + (1 # 2))) as H1.
    revert H0 H1 H23 HT Hlo Hhi.
    generalize (inject_Z (Qfloor (- x * 100 + (1 # 2)))).
    generalize (inject_Z (10 ^ 21)). generalize (inject_Z (10 ^ 23)).
    intros T23 T q H0 H1 H23 HT Hlo Hhi.
    assert (q / 100 == q * (1 # 100)) as -> by field.
    assert (0 <= q) by (apply H0; lra).
    assert (q <= 100 * T) by (apply H1; lra).
    repeat split; try lra.
  - rewrite toFixed2_small_nonneg by done.
    pose proof (Qfloor_nonneg (x * 100 + (1 # 2))) as H0.
    pose proof (Qfloor_below_big (x * 100 + (1 # 2))) as H1.
    revert H0 H1 H23 HT Hlo Hhi.
    generalize (inject_Z (Qfloor (x * 100 + (1 # 2)))).
    generalize (inject_Z (10 ^ 21)). generalize (inject_Z (10 ^ 23)).
    intros T23 T q H0 H1 H23 HT Hlo Hhi.
    assert (q / 100 == q * (1 # 100)) as -> by field.
    assert (0 <= q) by (apply H0; lra).
    assert (q <= 100 * T) by (apply H1; lra).
    repeat split; try lra.
Qed.

Lemma floor_cents_mono p q :
  p <= q →
  inject_Z (Qfloor (p * 100 + (1 # 2))) / 100
  <= inject_Z (Qfloor (q * 100 + (1 # 2))) / 100.
Proof.
  intros H.
  assert (Qfloor (p * 100 + (1 # 2)) <= Qfloor (q * 100 + (1 # 2)))%Z as Hf
    by (apply Qfloor_resp_le; lra).
  rewrite Zle_Qle in Hf. revert Hf.
  generalize (inject_Z (Qfloor (p * 100 + (1 # 2)))).
  generalize (inject_Z (Qfloor (q * 100 + (1 # 2)))).
  intros a b Hab.
  assert (a / 100 == a * (1 # 100)) as -> by field.
  assert (b / 100 == b * (1 # 100)) as -> by field. lra.
Qed.

(** Rounding to cents keeps the order. *)
Lemma toFixed2_monotone x y : x <= y → toFixed2 x <= toFixed2 y.
Proof.
  intros Hxy.
  destruct (Qle_bool (inject_Z (10 ^ 21)) (Qabs x)) eqn:Ex;
    destruct (Qle_bool (inject_Z (10 ^ 21)) (Qabs y)) eqn:Ey.
  - by rewrite (toFixed2_large x Ex), (toFixed2_large y Ey).
  - rewrite (toFixed2_large x Ex).
    destruct (big_small_abs y Ey) as [Hlo Hhi].
    destruct (toFixed2_small_bounds y Ey) as (Hb & _).
    destruct (big_large_abs x Ex) as [H|H]; lra.
  - rewrite (toFixed2_large y Ey).
    destruct (big_small_abs x Ex) as [Hlo Hhi].
    destruct (toFixed2_small_bounds x Ex) as (_ & Hb & _).
    destruct (big_large_abs y Ey) as [H|H]; lra.
  - destruct (toFixed2_small_bounds x Ex) as (_ & _ & Hx0 & Hx1).
    destruct (toFixed2_small_bounds y Ey) as (_ & _ & Hy0 & Hy1).
    destruct (Qlt_le_dec x 0) as [Hxneg|Hxpos];
      destruct (Qlt_le_dec y 0) as [Hyneg|Hypos].
    + rewrite (toFixed2_small_neg x), (toFixed2_small_neg y) by done.
      apply Qopp_le_compat.
      assert (- y <= - x) as Hopp by lra.
      exact (floor_cents_mono (- y) (- x) Hopp).
    + specialize (Hx1 Hxneg). specialize (Hy0 Hypos). lra.
    + lra.
    + rewrite (toFixed2_small_nonneg x), (toFixed2_small_nonneg y) by done.
      by apply floor_cents_mono.
Qed.

(** ** The trajectory without crisis and volatility *)

#[local] Instance toFixed2_wd : Proper (Qeq ==> Qeq) toFixed2.
Proof. intros x y Hxy. by apply toFixed2_comp. Qed.

Lemma no_risk_cell cfg assets factors n a y :
  NoDup (names assets) → (n, a) ∈ assets → isBaseline a = false →
  enableRisk cfg = false → enableVolatility cfg = false →
  (y ≤ years cfg)%nat →
  getCell (scenarioRows cfg assets (baselineData cfg assets) factors) y n
  == toFixed2 (initialAmount cfg * (1 + return_ a / 100) ^ Z.of_nat y)
     / (1 + combinedAnnualDrag cfg) ^ Z.of_nat y.
Proof.
  intros Hnd Hin Ha Hrisk Hvol Hy. unfold scenarioRows.
  rewrite volatilityStage_off, crisisStage_off by done.
  destruct y as [|y].
  - rewrite dragStage_row0, (baselineData_tracked cfg assets 0 n a) by done.
    rewrite compound_power. change (Z.of_nat 0) with 0%Z.
    rewrite !Qpower_0_r. field.
  - rewrite (dragStage_tracked cfg assets _ (S y) n a);
      [|done|done|done|lia|rewrite length_baselineData; lia].
    rewrite (baselineData_tracked cfg assets (S y) n a) by done.
    by rewrite compound_power.
Qed.

(** C2.  With the crisis model on and volatility off, the value of a
    non-baseline asset in any year from 2 to [years] is at most that year's
    recovery target, [(baselineData[y] / (1 + combinedDrag)^y) *
    permanentDamageRatio], whether the year falls inside the recovery
    window or after it. *)
Theorem recovery_target_cap cfg assets factors name a y :
  enableRisk cfg = true → crisisType cfg ≠ "NONE"%string →
  enableVolatility cfg = false →
  NoDup (names assets) → (name, a) ∈ assets → isBaseline a = false →
  (2 ≤ y ≤ years cfg)%nat →
  getCell (scenarioRows cfg assets (baselineData cfg assets) factors) y name
  <= getCell (baselineData cfg assets) y name
       / (1 + combinedAnnualDrag cfg) ^ Z.of_nat y
     * permanentDamageRatio cfg a.
Proof.
  intros Hrisk Htype Hvol Hnd Hin Ha Hy. unfold scenarioRows.
  rewrite volatilityStage_off by done.
  rewrite <- Math_pow_nat.
  apply (crisisStage_bound cfg assets (baselineData cfg assets)); try done.
  - by apply crisisActive_on.
  - by rewrite length_dragStage, length_baselineData.
Qed.

(** C3 (amended).  The value under the baseline key is [initialAmount]
    rounded to two decimals in every year and for every configuration: the
    drag, crisis and volatility stages leave the cell as they find it.  It
    is [initialAmount] itself when that is a whole number of cents. *)
Theorem baseline_series_fixed cfg assets factors a y :
  NoDup (names assets) → (baselineKey, a) ∈ assets → isBaseline a = true →
  (y ≤ years cfg)%nat →
  (∀ sc, getCell (dragStage cfg assets sc) y baselineKey
         = getCell sc y baselineKey) ∧
  (∀ bl sc, getCell (crisisStage cfg assets bl sc) y baselineKey
            = getCell sc y baselineKey) ∧
  (∀ sc, getCell (volatilityStage cfg assets factors sc) y baselineKey
         = getCell sc y baselineKey) ∧
  getCell (scenarioRows cfg assets (baselineData cfg assets) factors)
          y baselineKey
  = toFixed2 (initialAmount cfg) ∧
  (∀ c : Z, initialAmount cfg == inject_Z c / 100 →
     getCell (scenarioRows cfg assets (baselineData cfg assets) factors)
             y baselineKey
     == initialAmount cfg).
Proof.
  intros Hnd Hin Ha Hy.
  pose proof (baselineKey_untracked assets a Hnd Hin Ha) as Hun.
  assert (getCell (scenarioRows cfg assets (baselineData cfg assets) factors)
                  y baselineKey
          = toFixed2 (initialAmount cfg)) as Hval.
  { unfold scenarioRows.
    rewrite volatilityStage_untracked, crisisStage_untracked,
      dragStage_untracked by done.
    by apply baselineData_baselineKey. }
  repeat split.
  - intros sc. by apply dragStage_untracked.
  - intros bl sc. by apply crisisStage_untracked.
  - intros sc. by apply volatilityStage_untracked.
  - exact Hval.
  - intros c Hc. rewrite Hval. by apply (toFixed2_cents _ c).
Qed.

Lemma no_risk_baseline_over_drag cfg assets factors n a y :
  NoDup (names assets) → (n, a) ∈ assets → isBaseline a = false →
  crisisActive cfg = false → enableVolatility cfg = false →
  (y ≤ years cfg)%nat →
  getCell (scenarioRows cfg assets (baselineData cfg assets) factors) y n
  == getCell (baselineData cfg assets) y n
     / (1 + combinedAnnualDrag cfg) ^ Z.of_nat y.
Proof.
  intros Hnd Hin Ha Hcrisis Hvol Hy. unfold scenarioRows, crisisStage.
  rewrite volatilityStage_off, Hcrisis by done.
  destruct y as [|y].
  - rewrite dragStage_row0. change (Z.of_nat 0) with 0%Z.
    rewrite Qpower_0_r. field.
  - rewrite (dragStage_tracked cfg assets _ (S y) n a);
      [reflexivity|done|done|done|lia|rewrite length_baselineData; lia].
Qed.



(** C5.  100000 over 5 years at a return of 7, without fees, inflation,
    risk or volatility: the year-5 value is 140255.17. *)
Theorem steady_growth_year5 cfg assets factors n a :
  initialAmount cfg == 100000 → years cfg = 5%nat →
  annualFees cfg == 0 → inflationRate cfg == 0 →
  enableRisk cfg = false → enableVolatility cfg = false →
  NoDup (names assets) → (n, a) ∈ assets → isBaseline a = false →
  return_ a == 7 →
  getCell (scenarioRows cfg assets (baselineData cfg assets) factors) 5 n
  == 14025517 # 100.
Proof.
  intros Hamt Hyears Hfees Hinfl Hrisk Hvol Hnd Hin Ha Hret.
  rewrite (no_risk_cell cfg assets factors n a 5) by (done || lia).
  unfold combinedAnnualDrag. rewrite Hamt, Hret, Hfees, Hinfl.
  vm_compute. reflexivity.
Qed.

(** ** Crisis sensitivity *)

Lemma effectiveSensitivity_zero a :
  crisisSensitivity a == 0 → effectiveSensitivity a = 1.
Proof.
  intros H. unfold effectiveSensitivity, js_or.
  apply Qeq_bool_iff in H. by rewrite H.
Qed.

Lemma effectiveSensitivity_nonzero a :
  ¬ crisisSensitivity a == 0 → effectiveSensitivity a = crisisSensitivity a.
Proof.
  intros H. unfold effectiveSensitivity, js_or.
  destruct (Qeq_bool _ 0) eqn:E; [|done].
  by apply Qeq_bool_iff in E.
Qed.

(** For a sensitivity other than 0 the crisis constants use the asset's own
    value. *)
Lemma own_sensitivity_nonzero cfg a :
  ¬ crisisSensitivity a == 0 →
  drawdownImpactDecimal cfg a
  = drawdown cfg / 100 * drawdownImpact a * crisisSensitivity a
  ∧ (crisisType cfg = "RISK_OFF"%string →
     permanentDamageRatio cfg a
     = (90 # 100) - drawdownImpactDecimal cfg a * (4 # 10) * crisisSensitivity a).
Proof.
  intros H. unfold permanentDamageRatio, drawdownImpactDecimal.
  rewrite (effectiveSensitivity_nonzero a H). split; [done|].
  intros ->. reflexivity.
Qed.

(** C10.  A non-baseline asset whose [crisisSensitivity] is 0 goes through
    the crisis model as if the field were 1: [drawdownImpactDecimal] is
    [(drawdown/100) * drawdownImpact * 1], the permanent damage is that of
    sensitivity 1, and the year-1 value after the crisis block is the
    drag-adjusted value times [1 - (drawdown/100) * drawdownImpact]. *)
Theorem zero_sensitivity_counts_as_one cfg assets name a :
  crisisSensitivity a == 0 →
  enableRisk cfg = true → crisisType cfg ≠ "NONE"%string →
  NoDup (names assets) → (name, a) ∈ assets → isBaseline a = false →
  (1 ≤ years cfg)%nat →
  drawdownImpactDecimal cfg a = drawdown cfg / 100 * drawdownImpact a * 1
  ∧ drawdownImpactDecimal cfg a = drawdownImpactDecimal cfg (withSensitivity a 1)
  ∧ permanentDamageRatio cfg a = permanentDamageRatio cfg (withSensitivity a 1)
  ∧ (crisisType cfg = "RISK_OFF"%string →
     permanentDamageRatio cfg a
     = (90 # 100) - drawdown cfg / 100 * drawdownImpact a * 1 * (4 # 10) * 1)
  ∧ getCell (crisisStage cfg assets (baselineData cfg assets)
               (dragStage cfg assets (baselineData cfg assets))) 1 name
    == getCell (baselineData cfg assets) 1 name
         / (1 + combinedAnnualDrag cfg)
       * (1 - drawdown cfg / 100 * drawdownImpact a).
Proof.
  intros Hz Hrisk Htype Hnd Hin Ha Hy.
  pose proof (effectiveSensitivity_zero a Hz) as He.
  assert (drawdownImpactDecimal cfg a
          = drawdown cfg / 100 * drawdownImpact a * 1) as Hddi.
  { unfold drawdownImpactDecimal. by rewrite He. }
  split; [done|]. split; [by rewrite Hddi|]. split.
  { unfold permanentDamageRatio. rewrite Hddi, He. reflexivity. }
  split.
  { intros Ht. unfold permanentDamageRatio. rewrite Hddi, He, Ht. reflexivity. }
  rewrite (crisisStage_year1 cfg assets _ _ name a);
    [|by apply crisisActive_on|done|done|done|done
     |by rewrite length_dragStage, length_baselineData].
  rewrite (dragStage_tracked cfg assets _ 1 name a);
    [|done|done|done|lia|rewrite length_baselineData; lia].
  rewrite Hddi. change (Z.of_nat 1) with 1%Z. rewrite Qpower_1_r. ring.
Qed.

(** ** Random factors *)

Lemma randomFactorsStep_view cfg cfg' st e e' :
  years cfg = years cfg' → volatilityLevel cfg = volatilityLevel cfg' →
  e.1 = e'.1 → volatility e.2 = volatility e'.2 →
  isBaseline e.2 = isBaseline e'.2 →
  randomFactorsStep cfg st e = randomFactorsStep cfg' st e'.
Proof.
  destruct e as [k a], e' as [k' a'], st as [factors seed]. simpl.
  intros -> -> -> -> ->. reflexivity.
Qed.

Lemma randomFactorsFold_view cfg cfg' assets assets' st :
  years cfg = years cfg' → volatilityLevel cfg = volatilityLevel cfg' →
  rngView assets = rngView assets' →
  foldl (randomFactorsStep cfg) st assets
  = foldl (randomFactorsStep cfg') st assets'.
Proof.
  intros Hy Hl. revert assets' st.
  induction assets as [|e rest IH]; intros [|e' rest'] st Hview;
    try discriminate; [done|].
  unfold rngView in Hview. simpl in Hview.
  injection Hview as Hk Hv Hb Hrest. cbn [foldl].
  rewrite (randomFactorsStep_view cfg cfg' st e e') by done.
  by apply IH.
Qed.

Lemma randomFactorsFold_other cfg assets st n :
  n ∉ names assets →
  (foldl (randomFactorsStep cfg) st assets).1 !! n = st.1 !! n.
Proof.
  revert st. induction assets as [|[k a] rest IH]; intros st Hn; [done|].
  unfold names in Hn. simpl in Hn. apply not_elem_of_cons in Hn as [Hk Hn].
  cbn [foldl]. rewrite IH by done.
  destruct st as [factors seed]. unfold randomFactorsStep.
  destruct (isBaseline a); [|destruct (drawFactors _ _ _ _)];
    simpl; by rewrite lookup_insert_ne.
Qed.

Lemma randomFactorsFold_baseline cfg assets st n a :
  NoDup (names assets) → (n, a) ∈ assets → isBaseline a = true →
  (foldl (randomFactorsStep cfg) st assets).1 !! n
  = Some (replicate (years cfg + 1) 0).
Proof.
  revert st. induction assets as [|[k b] rest IH]; intros st Hnd Hin Ha.
  { by apply elem_of_nil in Hin. }
  unfold names in Hnd. simpl in Hnd. apply NoDup_cons in Hnd as [Hk Hnd].
  cbn [foldl]. apply elem_of_cons in Hin as [Heq|Hin].
  - injection Heq as <- <-. rewrite randomFactorsFold_other by done.
    destruct st as [factors seed]. unfold randomFactorsStep. rewrite Ha.
    simpl. by rewrite lookup_insert_eq.
  - by apply IH.
Qed.

(** C6.  The random factors are a function of the seed, the number of
    years, the volatility level and the asset table read as names in order
    with their [volatility] and [isBaseline] fields: two evaluations that
    agree on these return the same factors; a baseline asset's array is
    [years + 1] zeros. *)
Theorem randomFactors_deterministic cfg cfg' assets assets' :
  randomSeedBase cfg = randomSeedBase cfg' → years cfg = years cfg' →
  volatilityLevel cfg = volatilityLevel cfg' →
  rngView assets = rngView assets' →
  randomFactors cfg assets = randomFactors cfg' assets'
  ∧ ∀ n a, NoDup (names assets) → (n, a) ∈ assets → isBaseline a = true →
           randomFactors cfg assets !! n = Some (replicate (years cfg + 1) 0).
Proof.
  intros Hseed Hy Hl Hview. split.
  - unfold randomFactors. rewrite Hseed.
    by rewrite (randomFactorsFold_view cfg cfg' assets assets').
  - intros n a Hnd Hin Ha.
    unfold randomFactors. by apply (randomFactorsFold_baseline cfg assets _ n a).
Qed.

(** ** Max drawdown *)

Lemma Qmax_zero m d : m == 0 → d == 0 → Qmax m d == 0.
Proof.
  intros Hm Hd. destruct (Q.max_spec m d) as [[_ H]|[_ H]]; by rewrite H.
Qed.

Lemma toFixed2_nonneg x : 0 <= x → 0 <= toFixed2 x.
Proof.
  intros Hx. unfold toFixed2, Qltb.
  destruct (Qle_bool _ (Qabs x)); [done|].
  apply Qle_bool_iff in Hx as Hb. rewrite Hb. cbn [negb].
  apply Qle_shift_div_l; [reflexivity|]. rewrite Qmult_0_l.
  change 0 with (inject_Z 0). rewrite <- Zle_Qle.
  change 0%Z with (Qfloor 0). apply Qfloor_resp_le.
  apply Qle_trans with (x * 100 + 0).
  - rewrite Qplus_0_r. apply Qmult_le_0_compat; [done|discriminate].
  - apply Qplus_le_r. discriminate.
Qed.

Lemma toFixed2_zero x : x == 0 → toFixed2 x == 0.
Proof. intros ->. reflexivity. Qed.

Lemma drawdownFold_nonneg sc name ys st :
  0 <= st.1 → 0 <= (foldl (drawdownStep sc name) st ys).1.
Proof.
  revert st. induction ys as [|y ys IH]; intros [m peak] Hm; [done|].
  cbn [foldl]. apply IH. unfold drawdownStep. cbn [fst].
  eapply Qle_trans; [exact Hm|apply Q.le_max_l].
Qed.

(** On a stretch where the value never falls, the peak follows the value
    and no drawdown is recorded. *)
Lemma drawdownFold_flat sc name n k st :
  st.1 == 0 → st.2 == getCell sc k name →
  (∀ y, (k ≤ y < k + n)%nat → getCell sc y name <= getCell sc (S y) name) →
  (foldl (drawdownStep sc name) st (seq (S k) n)).1 == 0.
Proof.
  revert k st. induction n as [|n IH]; intros k [m peak] Hm Hpeak Hmono.
  { done. }
  cbn [seq foldl]. cbn [fst snd] in Hm, Hpeak.
  assert (getCell sc k name <= getCell sc (S k) name) as Hstep
    by (apply Hmono; lia).
  set (cur := getCell sc (S k) name) in *.
  assert ((if Qltb peak cur then cur else peak) == cur) as Hpk.
  { destruct (Qltb peak cur) eqn:E; [reflexivity|].
    apply Qltb_false in E. apply Qle_antisym; [|done].
    by rewrite Hpeak. }
  apply IH.
  - unfold drawdownStep. cbn [fst]. fold cur. apply Qmax_zero; [done|].
    rewrite Hpk. unfold Qdiv. ring.
  - unfold drawdownStep. cbn [snd]. by fold cur.
  - intros y Hy. apply Hmono. lia.
Qed.

Lemma summaryFold_other cfg sc rest (m : gmap string Metrics) n :
  n ∉ names rest →
  foldl (fun (m : gmap string Metrics) (entry : string * Asset) =>
           let '(name, asset) := entry in
           if isBaseline asset then m
           else <[name := assetMetrics sc name (years cfg)]> m) m rest !! n
  = m !! n.
Proof.
  revert m. induction rest as [|[k b] rest IH]; intros m Hn; [done|].
  unfold names in Hn. simpl in Hn. apply not_elem_of_cons in Hn as [Hk Hn].
  cbn [foldl]. rewrite IH by done.
  destruct (isBaseline b); [done|]. by rewrite lookup_insert_ne.
Qed.

(** The record stored for a non-baseline asset is [assetMetrics]. *)
Lemma summaryMetrics_lookup cfg assets sc n a :
  NoDup (names assets) → (n, a) ∈ assets → isBaseline a = false →
  summaryMetrics cfg assets sc !! n = Some (assetMetrics sc n (years cfg)).
Proof.
  unfold summaryMetrics. generalize (∅ : gmap string Metrics).
  induction assets as [|[k b] rest IH]; intros m Hnd Hin Ha.
  { by apply elem_of_nil in Hin. }
  unfold names in Hnd. simpl in Hnd. apply NoDup_cons in Hnd as [Hk Hnd].
  cbn [foldl]. apply elem_of_cons in Hin as [Heq|Hin]; [|by apply IH].
  injection Heq as <- <-. rewrite Ha.
  rewrite summaryFold_other by done. apply lookup_insert_eq.
Qed.

(** C7.  On a trajectory with positive values the [maxDrawdown] metric
    stored for a non-baseline asset is at least 0, and it is 0 when the
    trajectory never falls from one year to the next. *)
Theorem maxDrawdown_sanity cfg assets sc n a :
  NoDup (names assets) → (n, a) ∈ assets → isBaseline a = false →
  (∀ y, (y ≤ years cfg)%nat → 0 < getCell sc y n) →
  ∃ m, summaryMetrics cfg assets sc !! n = Some m
       ∧ 0 <= maxDrawdown m
       ∧ ((∀ y, (y < years cfg)%nat →
                getCell sc y n <= getCell sc (S y) n) →
          maxDrawdown m == 0).
Proof.
  intros Hnd Hin Ha Hpos. exists (assetMetrics sc n (years cfg)).
  split; [by apply (summaryMetrics_lookup cfg assets sc n a)|].
  cbn [maxDrawdown assetMetrics]. unfold maxDrawdownMetric.
  split.
  - apply toFixed2_nonneg. unfold maxDrawdownLoop.
    by apply drawdownFold_nonneg.
  - intros Hmono. apply toFixed2_zero. unfold maxDrawdownLoop.
    rewrite upto_1. apply drawdownFold_flat; [done|done|].
    intros y Hy. apply Hmono. lia.
Qed.

(** ** The generator *)

Lemma seed_step_nonzero seed :
  (1 ≤ seed < 2147483647)%Z → Z.rem (seed * 16807) 2147483647 ≠ 0%Z.
Proof.
  intros Hs H. apply Z.rem_divide in H; [|done].
  rewrite Z.mul_comm in H. apply Z.gauss in H; [|reflexivity].
  apply Z.divide_pos_le in H; lia.
Qed.

Lemma seededRandom_range seed :
  (1 ≤ seed < 2147483647)%Z →
  (1 ≤ (seededRandom seed).2 < 2147483647)%Z
  ∧ 0 <= (seededRandom seed).1 ∧ (seededRandom seed).1 < 1.
Proof.
  intros Hs. unfold seededRandom. cbn [fst snd].
  pose proof (seed_step_nonzero seed Hs) as Hnz.
  pose proof (Z.rem_bound_pos (seed * 16807) 2147483647) as Hb.
  set (s' := Z.rem (seed * 16807) 2147483647) in *.
  assert (1 ≤ s' < 2147483647)%Z as Hr by lia.
  split; [done|].
  assert (1 <= inject_Z s') as H1
    by (change 1 with (inject_Z 1); rewrite <- Zle_Qle; lia).
  assert (inject_Z s' <= 2147483646) as H2
    by (change 2147483646 with (inject_Z 2147483646); rewrite <- Zle_Qle; lia).
  revert H1 H2. generalize (inject_Z s'). intros q H1 H2.
  assert ((q - 1) / 2147483646 == (q - 1) * (1 # 2147483646)) as -> by field.
  split; lra.
Qed.

Lemma normalRandom_seed_range seed :
  (1 ≤ seed < 2147483647)%Z → (1 ≤ (normalRandom seed).2 < 2147483647)%Z.
Proof.
  intros Hs. unfold normalRandom.
  destruct (seededRandom seed) as [u1 s1] eqn:E1.
  destruct (seededRandom s1) as [u2 s2] eqn:E2. cbn [snd].
  pose proof (seededRandom_range seed Hs) as (H1 & _).
  rewrite E1 in H1. cbn [snd] in H1.
  pose proof (seededRandom_range s1 H1) as (H2 & _).
  by rewrite E2 in H2.
Qed.

Lemma drawFactors_seed_range n vol level seed :
  (1 ≤ seed < 2147483647)%Z →
  (1 ≤ (drawFactors n vol level seed).2 < 2147483647)%Z.
Proof.
  revert seed. induction n as [|n IH]; intros seed Hs; [done|].
  cbn [drawFactors].
  pose proof (normalRandom_seed_range seed Hs) as H1.
  destruct (normalRandom seed) as [z s1]. cbn [snd] in H1.
  specialize (IH s1 H1).
  destruct (drawFactors n vol level s1) as [rest s2]. done.
Qed.

Lemma length_drawFactors n vol level seed :
  length (drawFactors n vol level seed).1 = n.
Proof.
  revert seed. induction n as [|n IH]; intros seed; [done|].
  cbn [drawFactors]. destruct (normalRandom seed) as [z s1].
  specialize (IH s1). destruct (drawFactors n vol level s1) as [rest s2].
  cbn [fst length] in *. by rewrite IH.
Qed.

(** X10.  A seed between 1 and 2147483646 stays in that range at every step,
    through [seededRandom], [normalRandom] and a whole array of draws, and
    each uniform deviate lies in [0, 1). *)
Theorem generator_stays_in_range seed :
  (1 ≤ seed < 2147483647)%Z →
  (1 ≤ (seededRandom seed).2 < 2147483647)%Z
  ∧ 0 <= (seededRandom seed).1 ∧ (seededRandom seed).1 < 1
  ∧ (1 ≤ (normalRandom seed).2 < 2147483647)%Z
  ∧ ∀ n vol level,
      (1 ≤ (drawFactors n vol level seed).2 < 2147483647)%Z.
Proof.
  intros Hs. destruct (seededRandom_range seed Hs) as (H1 & H2 & H3).
  split; [done|]. split; [done|]. split; [done|].
  split; [by apply normalRandom_seed_range|].
  intros n vol level. by apply drawFactors_seed_range.
Qed.

Lemma normalRandom_zero_seed : (normalRandom 0).2 = 0%Z.
Proof. reflexivity. Qed.

Lemma drawFactors_zero_seed n vol level :
  (drawFactors n vol level 0).2 = 0%Z.
Proof.
  induction n as [|n IH]; [done|].
  cbn [drawFactors]. pose proof normalRandom_zero_seed as Hz.
  destruct (normalRandom 0) as [z s1]. cbn [snd] in Hz. subst s1.
  by destruct (drawFactors n vol level 0) as [rest s2].
Qed.

Lemma randomFactorsFold_zero_seed cfg assets factors :
  (foldl (randomFactorsStep cfg) (factors, 0%Z) assets).2 = 0%Z.
Proof.
  revert factors. induction assets as [|[k b] rest IH]; intros factors; [done|].
  cbn [foldl]. unfold randomFactorsStep at 2.
  destruct (isBaseline b); [apply IH|].
  pose proof (drawFactors_zero_seed (years cfg + 1) (volatility b)
                (volatilityLevel cfg)) as Hz.
  destruct (drawFactors _ _ _ 0) as [fs s2]. cbn [snd] in Hz. subst s2.
  apply IH.
Qed.

(** X11.  The seed 0, which the [Random Seed] button can draw, never leaves
    0: it is 0 again after every draw and after the whole walk over the
    assets, and each uniform deviate is negative, outside the range
    [Math.log] needs. *)
Theorem zero_seed_never_recovers cfg assets :
  randomSeedBase cfg = 0%Z →
  (seededRandom 0).2 = 0%Z ∧ (seededRandom 0).1 < 0
  ∧ (∀ n vol level, (drawFactors n vol level 0).2 = 0%Z)
  ∧ (foldl (randomFactorsStep cfg) (∅, randomSeedBase cfg) assets).2 = 0%Z.
Proof.
  intros Hseed. split; [reflexivity|]. split; [reflexivity|].
  split; [apply drawFactors_zero_seed|].
  rewrite Hseed. apply randomFactorsFold_zero_seed.
Qed.

#[local] Set Warnings "-clear-no-such-hyp".

Lemma randomFactorsFold_shape cfg assets st :
  dom (foldl (randomFactorsStep cfg) st assets).1
  =@{gset string} dom st.1 ∪ list_to_set (names assets)
  ∧ (map_Forall (λ _ fs, length fs = (years cfg + 1)%nat) st.1 →
     map_Forall (λ _ fs, length fs = (years cfg + 1)%nat)
       (foldl (randomFactorsStep cfg) st assets).1).
Proof.
  clear pow_frac.
  revert st. induction assets as [|[k b] rest IH]; intros [factors seed].
  { cbn. split; [set_solver|done]. }
  cbn [foldl]. destruct (IH (randomFactorsStep cfg (factors, seed) (k, b)))
    as [IHd IHl].
  unfold names. rewrite fmap_cons, list_to_set_cons. cbn [fst].
  fold (names rest). rewrite IHd. clear IHd.
  unfold randomFactorsStep in *.
  pose proof (length_drawFactors (years cfg + 1) (volatility b)
                (volatilityLevel cfg) seed) as Hlen.
  destruct (isBaseline b).
  - cbn [fst] in *. rewrite dom_insert_L. split; [set_solver|].
    intros Hall. apply IHl. apply map_Forall_insert_2; [|done].
    apply length_replicate.
  - destruct (drawFactors _ _ _ seed) as [fs s2]. cbn [fst] in *.
    rewrite dom_insert_L. split; [set_solver|].
    intros Hall. apply IHl. by apply map_Forall_insert_2.
Qed.

(** X12.  [randomFactors] has an array for every asset name and for no
    other key, and every array has [years + 1] entries, so the volatility
    stage finds [randomFactors[name][yearIndex]] for every row it visits. *)
Theorem randomFactors_shape cfg assets :
  dom (randomFactors cfg assets) =@{gset string} list_to_set (names assets)
  ∧ ∀ n fs, randomFactors cfg assets !! n = Some fs →
            length fs = (years cfg + 1)%nat.
Proof.
  clear pow_frac.
  unfold randomFactors.
  destruct (randomFactorsFold_shape cfg assets (∅, randomSeedBase cfg))
    as [Hd Hl].
  split.
  - rewrite Hd. cbn [fst]. rewrite dom_empty_L. set_solver.
  - intros n fs Hn. apply (Hl (map_Forall_empty _) n fs Hn).
Qed.

Lemma randomFactorsFold_skip cfg assets st st' n :
  st.2 = st'.2 → st.1 !! n = st'.1 !! n →
  (∀ b, (n, b) ∈ assets → isBaseline b = false) →
  (foldl (randomFactorsStep cfg) st assets).1 !! n
  = (foldl (randomFactorsStep cfg) st'
       (filter (λ e, isBaseline e.2 = false) assets)).1 !! n.
Proof.
  revert st st'. induction assets as [|[k b] rest IH];
    intros [factors seed] [factors' seed'] Hseed Hn Hnb; [done|].
  cbn [fst snd] in Hseed, Hn. subst seed'.
  rewrite filter_cons. cbn [foldl snd].
  assert (∀ b', (n, b') ∈ rest → isBaseline b' = false) as Hrest
    by (intros b' Hb'; apply Hnb; by right).
  destruct (decide (isBaseline b = false)) as [Hb|Hb].
  - cbn [foldl]. apply IH; [| |done];
      unfold randomFactorsStep; rewrite Hb;
      destruct (drawFactors _ _ _ seed) as [fs s2]; cbn [fst snd]; [done|].
    destruct (decide (k = n)) as [->|Hk].
    + by rewrite !lookup_insert_eq.
    + by rewrite !lookup_insert_ne.
  - apply not_false_is_true in Hb.
    apply IH; [| |done]; unfold randomFactorsStep; rewrite Hb;
      cbn [fst snd]; [done|].
    rewrite lookup_insert_ne; [done|].
    intros ->. specialize (Hnb b (list_elem_of_here _ _)). congruence.
Qed.

(** X13.  The baseline asset draws no deviate: the factors of a non-baseline
    asset are those computed on the table with the baseline entries taken
    out. *)
Theorem baseline_draws_nothing cfg assets n a :
  NoDup (names assets) → (n, a) ∈ assets → isBaseline a = false →
  randomFactors cfg assets !! n
  = randomFactors cfg (filter (λ e, isBaseline e.2 = false) assets) !! n.
Proof.
  intros Hnd Hin Ha. unfold randomFactors.
  apply randomFactorsFold_skip; [done|done|].
  intros b Hb. by rewrite <- (assets_functional assets n a b).
Qed.

Lemma randomFactors_app cfg assets more n :
  n ∉ names more →
  randomFactors cfg (assets ++ more) !! n = randomFactors cfg assets !! n.
Proof.
  intros Hn. unfold randomFactors. rewrite foldl_app.
  by rewrite randomFactorsFold_other.
Qed.

(** ** More on the baseline rows *)

Lemma baselineFold_dom cfg yi assets (dp : gmap string Q) :
  dom (foldl (baselineStep cfg yi) dp assets)
  =@{gset string}
  dom dp ∪ list_to_set (names (filter (λ e, isBaseline e.2 = false) assets)).
Proof.
  clear pow_frac Math_sqrt Math_log Math_cos Math_PI.
  revert dp. induction assets as [|[k b] rest IH]; intros dp.
  { cbn. set_solver. }
  cbn [foldl]. rewrite IH, filter_cons. unfold baselineStep. cbn [snd].
  destruct (decide (isBaseline b = false)) as [Hb|Hb].
  - rewrite Hb, dom_insert_L. unfold names.
    rewrite fmap_cons, list_to_set_cons. cbn [fst]. set_solver.
  - apply not_false_is_true in Hb. by rewrite Hb.
Qed.

(** X15.  The baseline projection has one row per year, [years + 1] in all,
    and every row has a value for the baseline key and for each non-baseline
    asset, and for nothing else. *)
Theorem baselineData_shape cfg assets :
  length (baselineData cfg assets) = S (years cfg)
  ∧ ∀ y row, baselineData cfg assets !! y = Some row →
      dom row =@{gset string}
      {[ baselineKey ]}
      ∪ list_to_set (names (filter (λ e, isBaseline e.2 = false) assets)).
Proof.
  split; [apply length_baselineData|].
  intros y row Hrow.
  assert (y ≤ years cfg)%nat as Hy.
  { apply lookup_lt_Some in Hrow. rewrite length_baselineData in Hrow. lia. }
  rewrite baselineData_lookup in Hrow by done. injection Hrow as <-.
  unfold baselinePoint. rewrite baselineFold_dom.
  by rewrite dom_singleton_L.
Qed.

Lemma compound_step amount r (y : nat) :
  0 <= amount → 0 <= r →
  compound amount r y <= compound amount r (S y).
Proof.
  intros Ha Hr. rewrite !compound_power, Qpower_nat_succ.
  assert (0 <= (1 + r / 100) ^ Z.of_nat y) as Hp.
  { apply Qpower_0_le.
    assert (r / 100 == r * (1 # 100)) as -> by field. lra. }
  revert Hp. generalize ((1 + r / 100) ^ Z.of_nat y). intros p Hp.
  assert (r / 100 == r * (1 # 100)) as -> by field.
  assert (0 <= amount * p * r) as H1
    by (repeat apply Qmult_le_0_compat; done).
  assert (amount * (p * (1 + r * (1 # 100)))
          == amount * p + amount * p * r * (1 # 100)) as -> by ring.
  lra.
Qed.

Lemma compound_monotone amount r (y y' : nat) :
  0 <= amount → 0 <= r → (y ≤ y')%nat →
  compound amount r y <= compound amount r y'.
Proof.
  intros Ha Hr Hy. induction Hy as [|y' Hy IH]; [apply Qle_refl|].
  eapply Qle_trans; [exact IH|]. by apply compound_step.
Qed.

(** X16.  With a non-negative amount and a non-negative return the baseline
    projection of an asset never falls from one year to a later one. *)
Theorem baseline_grows cfg assets n a y y' :
  NoDup (names assets) → (n, a) ∈ assets → isBaseline a = false →
  0 <= initialAmount cfg → 0 <= return_ a →
  (y ≤ y' ≤ years cfg)%nat →
  getCell (baselineData cfg assets) y n
  <= getCell (baselineData cfg assets) y' n.
Proof.
  intros Hnd Hin Ha Hamt Hret Hy.
  rewrite (baselineData_tracked cfg assets y n a),
    (baselineData_tracked cfg assets y' n a) by (done || lia).
  apply toFixed2_monotone. apply compound_monotone; [done|done|lia].
Qed.

(** ** More on the stages *)

Lemma crisisAsset_row0 cfg bl sc entry n :
  getCell (crisisAsset cfg bl sc entry) 0 n = getCell sc 0 n.
Proof.
  destruct entry as [k b]. unfold crisisAsset.
  destruct (isBaseline b); [done|].
  rewrite crisisYears_other by (left; rewrite elem_of_upto; lia).
  case_match; [|done]. apply getCell_setCell_other. by left.
Qed.

Lemma crisisStage_row0 cfg assets bl sc n :
  getCell (crisisStage cfg assets bl sc) 0 n = getCell sc 0 n.
Proof.
  unfold crisisStage. destruct (crisisActive cfg); [|done].
  revert sc. induction assets as [|e rest IH]; intros sc; [done|].
  cbn [foldl]. by rewrite IH, crisisAsset_row0.
Qed.

Lemma volatilityStage_row0 cfg assets factors sc n :
  getCell (volatilityStage cfg assets factors sc) 0 n = getCell sc 0 n.
Proof.
  unfold volatilityStage. destruct (enableVolatility cfg); [|done].
  apply rowsFold_other_row. rewrite elem_of_upto. lia.
Qed.

Lemma length_scenarioRows cfg assets bl factors :
  length (scenarioRows cfg assets bl factors) = length bl.
Proof.
  unfold scenarioRows.
  by rewrite length_volatilityStage, length_crisisStage, length_dragStage.
Qed.

(** X17.  Whatever the scenario, the rows returned have as many years as the
    baseline, and year 0 of every non-baseline asset is the initial amount
    rounded to cents: no stage writes row 0. *)
Theorem year0_is_initial_amount cfg assets factors n a :
  NoDup (names assets) → (n, a) ∈ assets → isBaseline a = false →
  length (scenarioRows cfg assets (baselineData cfg assets) factors)
  = S (years cfg)
  ∧ getCell (scenarioRows cfg assets (baselineData cfg assets) factors) 0 n
    = toFixed2 (initialAmount cfg).
Proof.
  intros Hnd Hin Ha. split.
  - by rewrite length_scenarioRows, length_baselineData.
  - unfold scenarioRows.
    rewrite volatilityStage_row0, crisisStage_row0, dragStage_row0.
    rewrite (baselineData_tracked cfg assets 0 n a) by (done || lia).
    reflexivity.
Qed.

Lemma crisisStage_inactive cfg assets bl sc :
  crisisActive cfg = false → crisisStage cfg assets bl sc = sc.
Proof. intros H. unfold crisisStage. by rewrite H. Qed.

(** X18.  The crisis type [NONE] switches the crisis model off even with the
    risk switch on: without volatility the value of a non-baseline asset is
    its baseline value over the drag factor, as without risk. *)
Theorem crisis_type_none_is_no_crisis cfg assets factors n a y :
  crisisType cfg = "NONE"%string → enableVolatility cfg = false →
  NoDup (names assets) → (n, a) ∈ assets → isBaseline a = false →
  (y ≤ years cfg)%nat →
  (∀ bl sc, crisisStage cfg assets bl sc = sc)
  ∧ getCell (scenarioRows cfg assets (baselineData cfg assets) factors) y n
    == getCell (baselineData cfg assets) y n
       / (1 + (annualFees cfg + inflationRate cfg) / 100) ^ Z.of_nat y.
Proof.
  intros Htype Hvol Hnd Hin Ha Hy.
  assert (crisisActive cfg = false) as Hoff.
  { unfold crisisActive. rewrite Htype. by destruct (enableRisk cfg). }
  split; [intros bl sc; by apply crisisStage_inactive|].
  by apply (no_risk_baseline_over_drag cfg assets factors n a y).
Qed.

(** X19.  With the crisis model on and volatility off, the year-1 value of
    a non-baseline asset is its baseline value of year 1 over the drag
    factor, times [1 - drawdownImpactDecimal], whatever other assets the
    table holds. *)
Theorem year1_takes_the_shock cfg assets factors n a :
  enableRisk cfg = true → crisisType cfg ≠ "NONE"%string →
  enableVolatility cfg = false →
  NoDup (names assets) → (n, a) ∈ assets → isBaseline a = false →
  (1 ≤ years cfg)%nat →
  getCell (scenarioRows cfg assets (baselineData cfg assets) factors) 1 n
  == getCell (baselineData cfg assets) 1 n
     / (1 + combinedAnnualDrag cfg)
     * (1 - drawdownImpactDecimal cfg a).
Proof.
  intros Hrisk Htype Hvol Hnd Hin Ha Hy. unfold scenarioRows.
  rewrite volatilityStage_off by done.
  rewrite (crisisStage_year1 cfg assets _ _ n a);
    [|by apply crisisActive_on|done|done|done|done
     |by rewrite length_dragStage, length_baselineData].
  rewrite (dragStage_tracked cfg assets _ 1 n a);
    [|done|done|done|lia|rewrite length_baselineData; lia].
  change (Z.of_nat 1) with 1%Z. by rewrite Qpower_1_r.
Qed.

Lemma cap_is_min v t : (if Qltb t v then t else v) = Qmin v t.
Proof.
  unfold Qltb, Qle_bool, Qmin, GenericMinMax.gmin, Qcompare, Z.leb.
  by destruct (Qnum v * QDen t ?= Qnum t * QDen v)%Z.
Qed.

Lemma crisisYear_cell cfg bl name a sc y :
  (y < length sc)%nat →
  getCell (crisisYear cfg bl name a sc y) y name
  = crisisValue cfg bl name a (getCell sc 1 name) (getCell sc (y - 1) name) y.
Proof.
  intros Hy. unfold crisisYear, crisisValue.
  destruct (Qle_bool (ofNat y) (recoveryYears cfg + 1)).
  - by rewrite getCell_setCell_same.
  - rewrite <- cap_is_min.
    rewrite (getCell_setCell_same sc y name) by done.
    destruct (Qltb _ _); [|by rewrite getCell_setCell_same].
    rewrite getCell_setCell_same; [done|by rewrite length_setCell].
Qed.

Lemma crisisYears_cells cfg bl name a k sc y :
  (1 + k < length sc)%nat → (2 ≤ y < 2 + k)%nat →
  let final := foldl (crisisYear cfg bl name a) sc (seq 2 k) in
  getCell final y name
  = crisisValue cfg bl name a (getCell final 1 name)
      (getCell final (y - 1) name) y.
Proof.
  revert y. induction k as [|k IH]; intros y Hlen Hy; [lia|].
  cbn zeta. rewrite seq_S, foldl_app. cbn [foldl].
  set (mid := foldl (crisisYear cfg bl name a) sc (seq 2 k)) in *.
  assert (length mid = length sc) as Hmid by apply length_crisisYears.
  rewrite (crisisYear_other _ _ _ _ mid (2 + k) 1) by (left; lia).
  rewrite (crisisYear_other _ _ _ _ mid (2 + k) (y - 1)) by (left; lia).
  destruct (decide (y = 2 + k)%nat) as [->|Hne].
  - apply crisisYear_cell. lia.
  - rewrite crisisYear_other by (left; lia).
    apply IH; lia.
Qed.

Lemma crisisAsset_cells cfg bl sc name a y :
  isBaseline a = false → length sc = S (years cfg) →
  (2 ≤ y ≤ years cfg)%nat →
  let final := crisisAsset cfg bl sc (name, a) in
  getCell final y name
  = crisisValue cfg bl name a (getCell final 1 name)
      (getCell final (y - 1) name) y.
Proof.
  intros Ha Hlen Hy. unfold crisisAsset. rewrite Ha. unfold upto.
  replace (S (years cfg) - 2)%nat with (years cfg - 1)%nat by lia.
  apply crisisYears_cells; [|lia].
  case_match; rewrite ?length_setCell; lia.
Qed.

Lemma crisisRows_recurrence cfg assets factors n a y :
  enableRisk cfg = true → crisisType cfg ≠ "NONE"%string →
  enableVolatility cfg = false →
  NoDup (names assets) → (n, a) ∈ assets → isBaseline a = false →
  (2 ≤ y ≤ years cfg)%nat →
  let rows := scenarioRows cfg assets (baselineData cfg assets) factors in
  getCell rows y n
  = crisisValue cfg (baselineData cfg assets) n a
      (getCell rows 1 n) (getCell rows (y - 1) n) y.
Proof.
  intros Hrisk Htype Hvol Hnd Hin Ha Hy. cbn zeta. unfold scenarioRows.
  rewrite volatilityStage_off by done.
  unfold crisisStage. rewrite crisisActive_on by done.
  apply (crisisFold_own
           (λ sc, length sc = S (years cfg))
           (λ sc, getCell sc y n
                  = crisisValue cfg (baselineData cfg assets) n a
                      (getCell sc 1 n) (getCell sc (y - 1) n) y)
           cfg (baselineData cfg assets) assets n a); try done.
  - intros sc k b _ H. by rewrite length_crisisAsset.
  - intros sc k b Hk H. by rewrite !crisisAsset_other.
  - intros sc H. by apply crisisAsset_cells.
  - by rewrite length_dragStage, length_baselineData.
Qed.

(** X20.  With the crisis model on and volatility off, each year from 2 on
    follows from the finished rows themselves: inside the recovery window
    the value is the smaller of the target and the point reached between
    the year-1 value and the target, after it the smaller of the target and
    the previous year's value grown at the reduced return. *)
Theorem crisis_years_recurrence cfg assets factors n a y :
  enableRisk cfg = true → crisisType cfg ≠ "NONE"%string →
  enableVolatility cfg = false →
  NoDup (names assets) → (n, a) ∈ assets → isBaseline a = false →
  (2 ≤ y ≤ years cfg)%nat →
  let rows := scenarioRows cfg assets (baselineData cfg assets) factors in
  getCell rows y n
  = crisisValue cfg (baselineData cfg assets) n a
      (getCell rows 1 n) (getCell rows (y - 1) n) y.
Proof. apply crisisRows_recurrence. Qed.



(** X22.  A crisis with a market drawdown of 0 is not a no-op: with
    [RISK_OFF] the year-1 value is the drag-adjusted value, and every later
    year is at most nine tenths of the drag-adjusted baseline value. *)
Theorem zero_drawdown_still_costs cfg assets factors n a y :
  drawdown cfg == 0 → enableRisk cfg = true →
  crisisType cfg = "RISK_OFF"%string → enableVolatility cfg = false →
  NoDup (names assets) → (n, a) ∈ assets → isBaseline a = false →
  (2 ≤ y ≤ years cfg)%nat →
  permanentDamageRatio cfg a == 9 # 10
  ∧ getCell (scenarioRows cfg assets (baselineData cfg assets) factors) 1 n
    == getCell (baselineData cfg assets) 1 n / (1 + combinedAnnualDrag cfg)
  ∧ getCell (scenarioRows cfg assets (baselineData cfg assets) factors) y n
    <= getCell (baselineData cfg assets) y n
         / (1 + combinedAnnualDrag cfg) ^ Z.of_nat y * (9 # 10).
Proof.
  intros Hdd Hrisk Htype Hvol Hnd Hin Ha Hy.
  assert (crisisType cfg ≠ "NONE"%string) as Hne by (by rewrite Htype).
  assert (drawdownImpactDecimal cfg a == 0) as Hddi.
  { unfold drawdownImpactDecimal. rewrite Hdd.
    unfold Qdiv. ring. }
  assert (permanentDamageRatio cfg a == 9 # 10) as Hpdr.
  { unfold permanentDamageRatio. rewrite Htype, String.eqb_refl.
    cbv beta iota zeta. rewrite Hddi. ring. }
  split; [done|]. unfold scenarioRows.
  rewrite volatilityStage_off by done. split.
  - rewrite (crisisStage_year1 cfg assets _ _ n a);
      [|by apply crisisActive_on|done|done|done|lia
       |by rewrite length_dragStage, length_baselineData].
    rewrite (dragStage_tracked cfg assets _ 1 n a);
      [|done|done|done|lia|rewrite length_baselineData; lia].
    rewrite Hddi. change (Z.of_nat 1) with 1%Z. rewrite Qpower_1_r. ring.
  - rewrite <- Hpdr, <- Math_pow_nat.
    apply (crisisStage_bound cfg assets (baselineData cfg assets));
      try done.
    + by apply crisisActive_on.
    + by rewrite length_dragStage, length_baselineData.
Qed.

Lemma volatility_cell cfg assets factors sc n a y :
  enableVolatility cfg = true →
  NoDup (names assets) → (n, a) ∈ assets → isBaseline a = false →
  (1 ≤ y ≤ years cfg)%nat → (y < length sc)%nat →
  getCell (volatilityStage cfg assets factors sc) y n
  = toFixed2 (getCell sc y n * (1 + factorAt factors n y)).
Proof.
  intros Hvol Hnd Hin Ha Hy Hlen. unfold volatilityStage. rewrite Hvol.
  rewrite (rowsFold_tracked _ assets _ sc y n a); try done.
  - apply NoDup_upto.
  - by apply elem_of_upto.
Qed.

(** X23.  With volatility on, the value of a non-baseline asset in year 1
    and later is the value after the crisis stage times [1 + factor],
    rounded to cents; rounding it again changes nothing. *)
Theorem volatility_scales_and_rounds cfg assets factors n a y :
  enableVolatility cfg = true →
  NoDup (names assets) → (n, a) ∈ assets → isBaseline a = false →
  (1 ≤ y ≤ years cfg)%nat →
  let before := crisisStage cfg assets (baselineData cfg assets)
                  (dragStage cfg assets (baselineData cfg assets)) in
  let rows := scenarioRows cfg assets (baselineData cfg assets) factors in
  getCell rows y n = toFixed2 (getCell before y n * (1 + factorAt factors n y))
  ∧ toFixed2 (getCell rows y n) == getCell rows y n.
Proof.
  intros Hvol Hnd Hin Ha Hy. cbn zeta. unfold scenarioRows.
  rewrite (volatility_cell cfg assets factors _ n a y); try done.
  - split; [done|apply toFixed2_idempotent].
  - rewrite length_crisisStage, length_dragStage, length_baselineData. lia.
Qed.

(** ** More on the metrics *)

Lemma summaryFold_dom cfg sc assets (m : gmap string Metrics) :
  dom (foldl (fun (m : gmap string Metrics) (entry : string * Asset) =>
                let '(name, asset) := entry in
                if isBaseline asset then m
                else <[name := assetMetrics sc name (years cfg)]> m) m assets)
  =@{gset string}
  dom m ∪ list_to_set (names (filter (λ e, isBaseline e.2 = false) assets)).
Proof.
  clear Math_log Math_cos Math_PI.
  revert m. induction assets as [|[k b] rest IH]; intros m.
  { cbn. set_solver. }
  cbn [foldl]. rewrite IH, filter_cons. cbn [snd].
  destruct (decide (isBaseline b = false)) as [Hb|Hb].
  - rewrite Hb, dom_insert_L. unfold names.
    rewrite fmap_cons, list_to_set_cons. cbn [fst]. set_solver.
  - apply not_false_is_true in Hb. by rewrite Hb.
Qed.

(** X25.  The summary has a record for each non-baseline asset and for no
    other name; a baseline asset has none. *)
Theorem metrics_cover_non_baseline cfg assets sc :
  dom (summaryMetrics cfg assets sc)
  =@{gset string}
  list_to_set (names (filter (λ e, isBaseline e.2 = false) assets))
  ∧ ∀ n a, NoDup (names assets) → (n, a) ∈ assets → isBaseline a = true →
           summaryMetrics cfg assets sc !! n = None.
Proof.
  clear Math_log Math_cos Math_PI.
  assert (dom (summaryMetrics cfg assets sc)
          =@{gset string}
          list_to_set (names (filter (λ e, isBaseline e.2 = false) assets)))
    as Hdom.
  { unfold summaryMetrics. rewrite summaryFold_dom, dom_empty_L. set_solver. }
  split; [done|]. intros n a Hnd Hin Ha.
  apply not_elem_of_dom. rewrite Hdom, elem_of_list_to_set.
  unfold names. rewrite list_elem_of_fmap. intros ([k b] & -> & Hb).
  apply list_elem_of_filter in Hb as [Hb Hin']. cbn [fst snd] in *.
  rewrite (assets_functional assets k a b) in Ha by done. congruence.
Qed.

Lemma Qdiv_le_cross a b c d :
  0 < b → 0 < d → a * d <= c * b → a / b <= c / d.
Proof.
  intros Hb Hd H. apply Qle_shift_div_r; [done|].
  assert (c / d * b == c * b / d) as ->.
  { field. intros E. rewrite E in Hd. by apply Qlt_irrefl in Hd. }
  by apply Qle_shift_div_l.
Qed.

Lemma Qltb_true x y : Qltb x y = true → x < y.
Proof.
  unfold Qltb. intros H. apply negb_true_iff in H.
  apply Qnot_le_lt. intros Hle. apply Qle_bool_iff in Hle. congruence.
Qed.

(** The state of the drawdown loop after year [j]. *)
Lemma drawdownStep_bounds sc name m peak j :
  0 < getCell sc 0 name → 0 < getCell sc (S j) name →
  0 < peak → getCell sc 0 name <= peak → 0 <= m → m <= 100 →
  let st := drawdownStep sc name (m, peak) (S j) in
  0 < st.2 ∧ getCell sc 0 name <= st.2 ∧ m <= st.1 ∧ st.1 <= 100
  ∧ lossFromStart sc name (S j) <= st.1.
Proof.
  intros Hv0 Hcur Hpeak Hstart Hm0 Hm100. cbn zeta.
  unfold drawdownStep, lossFromStart. cbn [fst snd].
  set (v0 := getCell sc 0 name) in *.
  set (cur := getCell sc (S j) name) in *.
  set (peak' := if Qltb peak cur then cur else peak).
  assert (peak <= peak' ∧ cur <= peak') as [Hp1 Hp2].
  { unfold peak'. destruct (Qltb peak cur) eqn:E.
    - apply Qltb_true in E. split; lra.
    - apply Qltb_false in E. split; lra. }
  assert (0 < peak') as Hp0 by lra.
  assert (0 <= (peak' - cur) / peak') as Hd0.
  { apply Qle_shift_div_l; [done|]. lra. }
  assert ((peak' - cur) / peak' <= 1) as Hd1.
  { apply Qle_shift_div_r; [done|]. lra. }
  assert ((v0 - cur) / v0 <= (peak' - cur) / peak') as Hloss.
  { apply Qdiv_le_cross; [done|done|].
    assert (cur * v0 <= cur * peak') as Hc
      by (apply Qmult_le_l; [done|lra]).
    assert ((v0 - cur) * peak' == v0 * peak' - cur * peak') as -> by ring.
    assert ((peak' - cur) * v0 == v0 * peak' - cur * v0) as -> by ring.
    lra. }
  revert Hd0 Hd1 Hloss.
  generalize ((peak' - cur) / peak'). generalize ((v0 - cur) / v0).
  intros l d Hd0 Hd1 Hloss.
  pose proof (Q.le_max_l m (d * 100)) as Hl.
  pose proof (Q.le_max_r m (d * 100)) as Hr.
  assert (Qmax m (d * 100) <= 100) as Hub by (apply Q.max_lub; lra).
  repeat split; try lra. 
Qed.

Lemma drawdownFold_bounds sc name n j m peak :
  (∀ y, (y ≤ j + n)%nat → 0 < getCell sc y name) →
  0 < peak → getCell sc 0 name <= peak → 0 <= m → m <= 100 →
  (∀ y, (1 ≤ y ≤ j)%nat → lossFromStart sc name y <= m) →
  let st := foldl (drawdownStep sc name) (m, peak) (seq (S j) n) in
  st.1 <= 100
  ∧ ∀ y, (1 ≤ y ≤ j + n)%nat → lossFromStart sc name y <= st.1.
Proof.
  revert j m peak.
  induction n as [|n IH]; intros j m peak Hpos Hpeak Hstart Hm0 Hm100 Hdom.
  { cbn. split; [done|]. intros y Hy. apply Hdom. lia. }
  cbn [seq foldl].
  destruct (drawdownStep_bounds sc name m peak j) as (H1 & H2 & H3 & H4 & H5);
    try done; try (apply Hpos; lia).
  destruct (drawdownStep sc name (m, peak) (S j)) as [m' peak'].
  cbn [fst snd] in *.
  destruct (IH (S j) m' peak') as [IH1 IH2]; try done.
  - intros y Hy. apply Hpos. lia.
  - lra.
  - intros y Hy. destruct (decide (y = S j)) as [->|Hne]; [done|].
    eapply Qle_trans; [apply Hdom; lia|done].
  - cbn zeta in *. split; [done|].
    intros y Hy. apply IH2. lia.
Qed.

(** X26.  On a trajectory with positive values the [maxDrawdown] metric of a
    non-baseline asset is at most 100, and it is at least the rounded loss
    of any year against the start value. *)
Theorem maxDrawdown_bounds cfg assets sc n a :
  NoDup (names assets) → (n, a) ∈ assets → isBaseline a = false →
  (∀ y, (y ≤ years cfg)%nat → 0 < getCell sc y n) →
  ∃ m, summaryMetrics cfg assets sc !! n = Some m
       ∧ maxDrawdown m <= 100
       ∧ ∀ y, (1 ≤ y ≤ years cfg)%nat →
              toFixed2 (lossFromStart sc n y) <= maxDrawdown m.
Proof.
  intros Hnd Hin Ha Hpos. exists (assetMetrics sc n (years cfg)).
  split; [by apply (summaryMetrics_lookup cfg assets sc n a)|].
  cbn [maxDrawdown assetMetrics]. unfold maxDrawdownMetric, maxDrawdownLoop.
  rewrite upto_1.
  destruct (drawdownFold_bounds sc n (years cfg) 0 0 (getCell sc 0 n))
    as [Hub Hdom]; try done.
  - apply Hpos. lia.
  - apply Qle_refl.
  - intros y Hy. lia.
  - cbn zeta in *. split.
    + assert (100 == toFixed2 100) as -> by reflexivity.
      by apply toFixed2_monotone.
    + intros y Hy. apply toFixed2_monotone. apply Hdom. lia.
Qed.

(** X27.  After the [Nada] or the [Steady Growth] preset the engine runs
    without crisis and volatility on the same baseline rows: every
    non-baseline value is its baseline value over the drag factor, with the
    fees and inflation the state had before. *)
Theorem calm_presets_give_plain_growth cfg presetName cfg' selected
    assets factors n a y :
  presetName = "Nada"%string ∨ presetName = "Steady Growth"%string →
  applyScenarioPreset cfg presetName = inr (Some (cfg', selected)) →
  NoDup (names assets) → (n, a) ∈ assets → isBaseline a = false →
  (y ≤ years cfg)%nat →
  baselineData cfg' assets = baselineData cfg assets
  ∧ getCell (scenarioRows cfg' assets (baselineData cfg' assets) factors) y n
    == getCell (baselineData cfg assets) y n
       / (1 + (annualFees cfg + inflationRate cfg) / 100) ^ Z.of_nat y.
Proof.
  intros Hname Happly Hnd Hin Ha Hy.
  assert (enableRisk cfg' = false ∧ enableVolatility cfg' = false
          ∧ initialAmount cfg' = initialAmount cfg ∧ years cfg' = years cfg
          ∧ annualFees cfg' = annualFees cfg
          ∧ inflationRate cfg' = inflationRate cfg)
    as (Hr & Hv & Hamt & Hyears & Hf & Hi).
  { destruct Hname as [-> | ->]; cbv in Happly;
      injection Happly as <- _; repeat split. }
  assert (baselineData cfg' assets = baselineData cfg assets) as Hbl.
  { unfold baselineData, baselinePoint, baselineStep.
    by rewrite Hamt, Hyears. }
  split; [done|].
  rewrite (no_risk_baseline_over_drag cfg' assets factors n a y);
    [|done|done|done|unfold crisisActive; by rewrite Hr|done|lia].
  unfold combinedAnnualDrag. by rewrite Hbl, Hf, Hi.
Qed.

End Engine.

(** ** The asset handlers *)

Lemma setAsset_fresh assets name a :
  name ∉ names assets → setAsset assets name a = assets ++ [(name, a)].
Proof.
  induction assets as [|[k b] rest IH]; intros Hn; [done|].
  unfold names in Hn. simpl in Hn. apply not_elem_of_cons in Hn as [Hk Hn].
  simpl. destruct (String.eqb_spec k name) as [->|_]; [done|].
  by rewrite IH.
Qed.

(** When the generated name is not taken, [handleAddAsset] appends one entry
    with the default fields. *)
Lemma handleAddAsset_fresh assets :
  newAssetName assets ∉ names assets →
  handleAddAsset assets = assets ++ [(newAssetName assets, newAssetFields)].
Proof. apply setAsset_fresh. Qed.

Lemma lookupAsset_elem assets name a :
  NoDup (names assets) → (name, a) ∈ assets →
  lookupAsset assets name = Some a.
Proof.
  induction assets as [|[k b] rest IH]; intros Hnd Hin.
  { by apply elem_of_nil in Hin. }
  unfold names in Hnd. simpl in Hnd. apply NoDup_cons in Hnd as [Hk Hnd].
  simpl. apply elem_of_cons in Hin as [Heq|Hin].
  - injection Heq as <- <-. by rewrite String.eqb_refl.
  - destruct (String.eqb_spec k name) as [->|_]; [|by apply IH].
    exfalso. apply Hk. apply list_elem_of_fmap. by exists (name, a).
Qed.

(** C8.  Removing an asset of the table whose [isBaseline] is true throws
    nothing and leaves the asset table as it was. *)
Theorem remove_baseline_noop assets name a :
  NoDup (names assets) → (name, a) ∈ assets → isBaseline a = true →
  handleRemoveAsset assets name = inr assets.
Proof.
  intros Hnd Hin Ha. unfold handleRemoveAsset.
  by rewrite (lookupAsset_elem assets name a), Ha.
Qed.

(** C9 (failing input).  Two adds on the one-entry table and the removal of
    [New Asset 1] leave two entries, the second named [New Asset 2].  On
    such a table (here with the second entry edited) the generated name is
    [New Asset 2] again: the add keeps the number of entries and replaces
    that entry's fields by the defaults. *)
Theorem add_reuses_taken_name :
  handleRemoveAsset
    (handleAddAsset (handleAddAsset [(baselineKey, baselineAsset)]))
    "New Asset 1"
  = inr [(baselineKey, baselineAsset); ("New Asset 2"%string, newAssetFields)]
  ∧ newAssetName crowdedAssets = "New Asset 2"%string
  ∧ lookupAsset crowdedAssets "New Asset 2" = Some spx
  ∧ length (handleAddAsset crowdedAssets) = length crowdedAssets
  ∧ lookupAsset (handleAddAsset crowdedAssets) "New Asset 2"
    = Some newAssetFields
  ∧ spx ≠ newAssetFields.
Proof. repeat split; try reflexivity. discriminate. Qed.

(** C1 (failing input).  With a market drawdown of 20 and [RISK_OFF], an
    asset with [drawdownImpact] 1 and [crisisSensitivity] 0 gets
    [drawdownImpactDecimal] 0.2 and [permanentDamageRatio] 0.82; the
    formulas with its own sensitivity give 0 and 0.90. *)
Theorem zero_sensitivity_constants :
  crisisSensitivity spxInsensitive == 0
  ∧ drawdownImpactDecimal recessionConfig spxInsensitive == 2 # 10
  ∧ permanentDamageRatio recessionConfig spxInsensitive == 82 # 100
  ∧ ¬ drawdownImpactDecimal recessionConfig spxInsensitive
      == drawdown recessionConfig / 100 * drawdownImpact spxInsensitive
         * crisisSensitivity spxInsensitive
  ∧ ¬ permanentDamageRatio recessionConfig spxInsensitive
      == (90 # 100)
         - drawdownImpactDecimal recessionConfig spxInsensitive * (4 # 10)
           * crisisSensitivity spxInsensitive.
Proof. repeat split; try reflexivity; vm_compute; discriminate. Qed.

(** ** Worked examples *)

Lemma NoDup_twoAssets : NoDup (names twoAssets).
Proof. apply (bool_decide_unpack _). vm_compute. exact I. Qed.

Lemma NoDup_insensitiveAssets : NoDup (names insensitiveAssets).
Proof. apply (bool_decide_unpack _). vm_compute. exact I. Qed.

Lemma spx_in_twoAssets : (spxKey, spx) ∈ twoAssets.
Proof. right. left. Qed.

Lemma baseline_in_twoAssets : (baselineKey, baselineAsset) ∈ twoAssets.
Proof. left. Qed.

(** C3 (counterexample).  With an initial amount of 1/8 the baseline value
    of year 0 is 0.13, not 1/8. *)
Lemma baseline_value_is_rounded :
  getCell (simulate sample_pow_frac sample_unary sample_unary sample_unary
             sample_PI eighthConfig twoAssets).1 0 baselineKey == 13 # 100
  ∧ ¬ getCell (simulate sample_pow_frac sample_unary sample_unary sample_unary
                 sample_PI eighthConfig twoAssets).1 0 baselineKey
      == initialAmount eighthConfig.
Proof. split; [by vm_compute|]. vm_compute. discriminate. Qed.


(** The theorems above at the worked inputs. *)

Lemma spx_in_insensitiveAssets : (spxKey, spxInsensitive) ∈ insensitiveAssets.
Proof. right. left. Qed.

Lemma recovery_target_cap_witness :
  getCell (scenarioRows sample_pow_frac recessionConfig twoAssets
             (baselineData recessionConfig twoAssets) ∅) 4 spxKey
  <= getCell (baselineData recessionConfig twoAssets) 4 spxKey
       / (1 + combinedAnnualDrag recessionConfig) ^ Z.of_nat 4
     * permanentDamageRatio recessionConfig spx.
Proof.
  apply (recovery_target_cap sample_pow_frac recessionConfig twoAssets ∅
           spxKey spx 4);
    [ reflexivity | discriminate | reflexivity | exact NoDup_twoAssets
    | exact spx_in_twoAssets | reflexivity | simpl; lia ].
Defined.

Lemma baseline_series_fixed_witness :
  getCell (scenarioRows sample_pow_frac recessionConfig twoAssets
             (baselineData recessionConfig twoAssets) ∅) 3 baselineKey
  = toFixed2 (initialAmount recessionConfig).
Proof.
  destruct (baseline_series_fixed sample_pow_frac recessionConfig twoAssets ∅
              baselineAsset 3) as (_ & _ & _ & Hval & _);
    [ exact NoDup_twoAssets | exact baseline_in_twoAssets | reflexivity
    | simpl; lia | exact Hval ].
Defined.


Lemma steady_growth_year5_witness :
  getCell (scenarioRows sample_pow_frac steadyConfig twoAssets
             (baselineData steadyConfig twoAssets) ∅) 5 spxKey
  == 14025517 # 100.
Proof.
  apply (steady_growth_year5 sample_pow_frac steadyConfig twoAssets ∅
           spxKey spx);
    [ reflexivity | reflexivity | reflexivity | reflexivity | reflexivity
    | reflexivity | exact NoDup_twoAssets | exact spx_in_twoAssets
    | reflexivity | reflexivity ].
Defined.

Lemma randomFactors_deterministic_witness :
  randomFactors sample_unary sample_unary sample_unary sample_PI
    steadyConfig twoAssets
  = randomFactors sample_unary sample_unary sample_unary sample_PI
      recessionConfig insensitiveAssets
  ∧ randomFactors sample_unary sample_unary sample_unary sample_PI
      steadyConfig twoAssets !! baselineKey
    = Some (replicate 6 0).
Proof.
  destruct (randomFactors_deterministic sample_unary sample_unary sample_unary
              sample_PI steadyConfig recessionConfig twoAssets
              insensitiveAssets)
    as [Heq Hbase]; [reflexivity | reflexivity | reflexivity | reflexivity |].
  split; [exact Heq|].
  apply (Hbase baselineKey baselineAsset);
    [exact NoDup_twoAssets | exact baseline_in_twoAssets | reflexivity].
Defined.

Lemma maxDrawdown_sanity_witness :
  ∃ m, summaryMetrics sample_pow_frac sample_unary steadyConfig twoAssets
         (baselineData steadyConfig twoAssets) !! spxKey = Some m
       ∧ 0 <= maxDrawdown m ∧ maxDrawdown m == 0.
Proof.
  destruct (maxDrawdown_sanity sample_pow_frac sample_unary steadyConfig
              twoAssets (baselineData steadyConfig twoAssets) spxKey spx)
    as (m & Hm & Hnonneg & Hzero);
    [ exact NoDup_twoAssets | exact spx_in_twoAssets | reflexivity
    | intros y Hy; do 6 (destruct y as [|y]; [vm_compute; reflexivity|]);
      simpl in Hy; lia
    | ].
  exists m. split; [exact Hm|]. split; [exact Hnonneg|].
  apply Hzero. intros y Hy.
  do 5 (destruct y as [|y]; [vm_compute; discriminate|]).
  simpl in Hy; lia.
Defined.

Lemma NoDup_defaultAssets : NoDup (names defaultAssets).
Proof. apply (bool_decide_unpack _). vm_compute. exact I. Qed.

Lemma remove_baseline_noop_witness :
  handleRemoveAsset defaultAssets baselineKey = inr defaultAssets.
Proof.
  apply (remove_baseline_noop defaultAssets baselineKey baselineAsset);
    [exact NoDup_defaultAssets | left | reflexivity].
Defined.

Lemma zero_sensitivity_counts_as_one_witness :
  drawdownImpactDecimal recessionConfig spxInsensitive
  = drawdown recessionConfig / 100 * drawdownImpact spxInsensitive * 1
  ∧ getCell (crisisStage sample_pow_frac recessionConfig insensitiveAssets
               (baselineData recessionConfig insensitiveAssets)
               (dragStage sample_pow_frac recessionConfig insensitiveAssets
                  (baselineData recessionConfig insensitiveAssets))) 1 spxKey
    == getCell (baselineData recessionConfig insensitiveAssets) 1 spxKey
         / (1 + combinedAnnualDrag recessionConfig)
       * (1 - drawdown recessionConfig / 100 * drawdownImpact spxInsensitive).
Proof.
  destruct (zero_sensitivity_counts_as_one sample_pow_frac recessionConfig
              insensitiveAssets spxKey spxInsensitive)
    as (H1 & _ & _ & _ & H5);
    [ reflexivity | reflexivity | discriminate | exact NoDup_insensitiveAssets
    | exact spx_in_insensitiveAssets | reflexivity | simpl; lia | ].
  split; [exact H1 | exact H5].
Defined.

(** ** More on the asset handlers *)

Lemma lookupAsset_None assets name :
  lookupAsset assets name = None ↔ name ∉ names assets.
Proof.
  induction assets as [|[k b] rest IH]; simpl.
  - split; [intros _; apply not_elem_of_nil|done].
  - unfold names. simpl. rewrite not_elem_of_cons.
    destruct (String.eqb_spec k name) as [->|Hk].
    + split; [done|]. intros [? _]. done.
    + rewrite IH. unfold names. split; [intros H; split; [congruence|done]|].
      by intros [_ H].
Qed.

Lemma lookupAsset_Some_elem assets name a :
  lookupAsset assets name = Some a → (name, a) ∈ assets.
Proof.
  induction assets as [|[k b] rest IH]; simpl; [done|].
  destruct (String.eqb_spec k name) as [->|Hk].
  - intros [= ->]. left.
  - intros H. right. by apply IH.
Qed.

Lemma lookupAsset_setAsset assets k a k' :
  lookupAsset (setAsset assets k a) k'
  = if String.eqb k k' then Some a else lookupAsset assets k'.
Proof.
  induction assets as [|[j b] rest IH]; simpl.
  - by destruct (String.eqb k k').
  - destruct (String.eqb_spec j k) as [->|Hjk]; simpl.
    + destruct (String.eqb_spec k k'); done.
    + rewrite IH. destruct (String.eqb_spec j k') as [->|Hjk'];
        destruct (String.eqb_spec k k'); congruence.
Qed.

Lemma names_setAsset_taken assets k a :
  k ∈ names assets → names (setAsset assets k a) = names assets.
Proof.
  induction assets as [|[j b] rest IH]; intros Hk.
  { by apply elem_of_nil in Hk. }
  simpl. destruct (String.eqb_spec j k) as [->|Hjk]; [done|].
  unfold names in *. simpl in *. f_equal. apply IH.
  apply elem_of_cons in Hk as [->|Hk]; done.
Qed.

Lemma deleteAsset_cons k b rest name :
  deleteAsset ((k, b) :: rest) name
  = if decide (k ≠ name) then (k, b) :: deleteAsset rest name
    else deleteAsset rest name.
Proof. reflexivity. Qed.

Lemma deleteAsset_app l1 l2 name :
  deleteAsset (l1 ++ l2) name = deleteAsset l1 name ++ deleteAsset l2 name.
Proof.
  induction l1 as [|[k b] rest IH]; [done|].
  rewrite <- app_comm_cons, !deleteAsset_cons, IH.
  by destruct (decide (k ≠ name)).
Qed.

Lemma names_deleteAsset assets name :
  names (deleteAsset assets name) = filter (λ k, k ≠ name) (names assets).
Proof.
  unfold names.
  induction assets as [|[k b] rest IH]; [done|].
  rewrite deleteAsset_cons, fmap_cons, filter_cons. cbn [fst].
  destruct (decide (k ≠ name)); [rewrite fmap_cons|]; by rewrite IH.
Qed.

Lemma lookupAsset_deleteAsset assets name k :
  lookupAsset (deleteAsset assets name) k
  = if String.eqb name k then None else lookupAsset assets k.
Proof.
  induction assets as [|[j b] rest IH].
  - simpl. by destruct (String.eqb name k).
  - rewrite deleteAsset_cons.
    destruct (decide (j ≠ name)) as [Hj|Hj]; simpl.
    + rewrite IH. destruct (String.eqb_spec j k) as [->|Hjk];
        destruct (String.eqb_spec name k); congruence.
    + apply dec_stable in Hj as ->. rewrite IH.
      destruct (String.eqb_spec name k); done.
Qed.

Lemma NoDup_deleteAsset assets name :
  NoDup (names assets) → NoDup (names (deleteAsset assets name)).
Proof. intros H. rewrite names_deleteAsset. by apply NoDup_filter. Qed.

Lemma deleteAsset_fresh assets name :
  name ∉ names assets → deleteAsset assets name = assets.
Proof.
  unfold names.
  induction assets as [|[k b] rest IH]; intros Hn; [done|].
  simpl in Hn. apply not_elem_of_cons in Hn as [Hk Hn].
  rewrite deleteAsset_cons, IH by done.
  destruct (decide (k ≠ name)) as [_|Hne]; [done|].
  exfalso. apply Hne. congruence.
Qed.

Lemma length_deleteAsset assets name :
  NoDup (names assets) → name ∈ names assets →
  S (length (deleteAsset assets name)) = length assets.
Proof.
  unfold names.
  induction assets as [|[k b] rest IH]; intros Hnd Hin.
  { by apply elem_of_nil in Hin. }
  simpl in Hnd, Hin. apply NoDup_cons in Hnd as [Hk Hnd].
  rewrite deleteAsset_cons.
  destruct (decide (k ≠ name)) as [Hne|Heq]; simpl.
  - f_equal. apply IH; [done|].
    apply elem_of_cons in Hin as [->|Hin]; done.
  - apply dec_stable in Heq as ->. by rewrite deleteAsset_fresh.
Qed.

Lemma newAssetName_not_baselineKey assets : newAssetName assets ≠ baselineKey.
Proof. unfold newAssetName, baselineKey. simpl. discriminate. Qed.

Lemma hasNonDigit_newAssetName assets : hasNonDigit (newAssetName assets) = true.
Proof. reflexivity. Qed.

(** X1.  When the generated name is free, [handleAddAsset] appends one entry
    with the default fields: one more entry, distinct names again, and the
    entries that were there read as before. *)
Theorem add_appends_when_free assets :
  NoDup (names assets) → newAssetName assets ∉ names assets →
  handleAddAsset assets = assets ++ [(newAssetName assets, newAssetFields)]
  ∧ length (handleAddAsset assets) = S (length assets)
  ∧ NoDup (names (handleAddAsset assets))
  ∧ lookupAsset (handleAddAsset assets) (newAssetName assets)
    = Some newAssetFields
  ∧ ∀ k, k ∈ names assets →
         lookupAsset (handleAddAsset assets) k = lookupAsset assets k.
Proof.
  intros Hnd Hfresh.
  pose proof (handleAddAsset_fresh assets Hfresh) as Heq.
  split; [done|]. split.
  { rewrite Heq, length_app. simpl. lia. }
  split.
  { rewrite Heq. unfold names. rewrite fmap_app. apply NoDup_app.
    split; [done|]. split; [|apply NoDup_singleton].
    intros k Hk. simpl. rewrite list_elem_of_singleton. by intros ->. }
  split.
  { unfold handleAddAsset. by rewrite lookupAsset_setAsset, String.eqb_refl. }
  intros k Hk. unfold handleAddAsset. rewrite lookupAsset_setAsset.
  destruct (String.eqb_spec (newAssetName assets) k) as [<-|_]; done.
Qed.

(** X2.  [handleRemoveAsset] throws exactly for a name that is neither a
    key of the table nor a property every object inherits; for an inherited
    name that is no key it stores the table as it is. *)
Theorem remove_throws_iff_unknown assets name :
  (handleRemoveAsset assets name = inl TypeError
   ↔ (name ∉ names assets) ∧ (name ∉ inheritedKeys))
  ∧ ((name ∉ names assets) → name ∈ inheritedKeys →
     handleRemoveAsset assets name = inr assets).
Proof.
  split.
  - rewrite <- lookupAsset_None. unfold handleRemoveAsset, isInherited.
    destruct (lookupAsset assets name) as [a|].
    + split; [by destruct (isBaseline a)|]. by intros [? _].
    + case_bool_decide as Hin.
      * split; [discriminate|]. by intros [_ ?].
      * done.
  - intros Habsent Hin. unfold handleRemoveAsset, isInherited.
    apply lookupAsset_None in Habsent as Hnone. rewrite Hnone.
    rewrite bool_decide_eq_true_2 by done.
    by rewrite deleteAsset_fresh.
Qed.

(** X3.  Removing a non-baseline entry takes exactly that entry out: its
    name reads as absent, every other name reads as before, the other
    entries keep their order, and the table is one entry shorter. *)
Theorem remove_takes_one_out assets name a :
  NoDup (names assets) → (name, a) ∈ assets → isBaseline a = false →
  ∃ rest, handleRemoveAsset assets name = inr rest
    ∧ lookupAsset rest name = None
    ∧ (∀ k, k ≠ name → lookupAsset rest k = lookupAsset assets k)
    ∧ names rest = filter (λ k, k ≠ name) (names assets)
    ∧ NoDup (names rest)
    ∧ S (length rest) = length assets.
Proof.
  intros Hnd Hin Ha. exists (deleteAsset assets name).
  unfold handleRemoveAsset.
  rewrite (lookupAsset_elem assets name a), Ha by done.
  split; [done|]. split.
  { by rewrite lookupAsset_deleteAsset, String.eqb_refl. }
  split.
  { intros k Hk. rewrite lookupAsset_deleteAsset.
    destruct (String.eqb_spec name k); congruence. }
  split; [apply names_deleteAsset|].
  split; [by apply NoDup_deleteAsset|].
  apply length_deleteAsset; [done|].
  apply list_elem_of_fmap. by exists (name, a).
Qed.

(** X4.  Adding an asset under a free name and removing it again gives the
    table back. *)
Theorem add_then_remove assets :
  newAssetName assets ∉ names assets →
  handleRemoveAsset (handleAddAsset assets) (newAssetName assets) = inr assets.
Proof.
  intros Hfresh. unfold handleRemoveAsset.
  assert (lookupAsset (handleAddAsset assets) (newAssetName assets)
          = Some newAssetFields) as ->.
  { unfold handleAddAsset. by rewrite lookupAsset_setAsset, String.eqb_refl. }
  cbn [isBaseline newAssetFields].
  rewrite (handleAddAsset_fresh assets Hfresh).
  rewrite deleteAsset_app, deleteAsset_cons, deleteAsset_fresh by done.
  destruct (decide (newAssetName assets ≠ newAssetName assets)); [done|].
  f_equal. apply app_nil_r.
Qed.

(** X5.  The baseline entry survives the add and remove handlers: whatever
    is added or removed, the key [Baseline (No Scenario)] keeps its entry. *)
Theorem baseline_entry_kept assets b :
  lookupAsset assets baselineKey = Some b → isBaseline b = true →
  lookupAsset (handleAddAsset assets) baselineKey = Some b
  ∧ ∀ name rest, handleRemoveAsset assets name = inr rest →
                 lookupAsset rest baselineKey = Some b.
Proof.
  intros Hb Hflag. split.
  - unfold handleAddAsset. rewrite lookupAsset_setAsset.
    destruct (String.eqb_spec (newAssetName assets) baselineKey) as [E|_];
      [|done].
    by apply newAssetName_not_baselineKey in E.
  - intros name rest. unfold handleRemoveAsset.
    destruct (lookupAsset assets name) as [a|] eqn:Ha.
    + destruct (isBaseline a) eqn:Hbase; intros [= <-]; [done|].
      rewrite lookupAsset_deleteAsset.
      destruct (String.eqb_spec name baselineKey) as [->|_]; [|done].
      congruence.
    + destruct (isInherited name); intros [= <-].
      rewrite lookupAsset_deleteAsset.
      destruct (String.eqb_spec name baselineKey) as [->|_]; [|done].
      congruence.
Qed.

Lemma length_setAsset_taken assets k a :
  k ∈ names assets → length (setAsset assets k a) = length assets.
Proof.
  intros Hk. rewrite <- (length_fmap fst (setAsset assets k a)).
  fold (names (setAsset assets k a)). rewrite names_setAsset_taken by done.
  unfold names. by rewrite length_fmap.
Qed.

Lemma elem_names (assets : AssetMap) name a :
  (name, a) ∈ assets → name ∈ names assets.
Proof. intros H. apply list_elem_of_fmap. by exists (name, a). Qed.

(** X6.  Renaming an entry to a name that no other entry has, and that is
    not [__proto__], moves it to the end of the table under the new name,
    with its fields: the table keeps its size, the old name reads as absent
    and the other names read as before. *)
Theorem rename_to_free_name assets name a newName :
  NoDup (names assets) → (name, a) ∈ assets →
  newName = name ∨ newName ∉ names assets →
  hasNonDigit newName = true → newName ≠ "__proto__"%string →
  renameAsset assets name newName
  = Some (deleteAsset assets name ++ [(newName, a)])
  ∧ length (deleteAsset assets name ++ [(newName, a)]) = length assets
  ∧ NoDup (names (deleteAsset assets name ++ [(newName, a)]))
  ∧ lookupAsset (deleteAsset assets name ++ [(newName, a)]) newName = Some a
  ∧ (newName ≠ name →
     lookupAsset (deleteAsset assets name ++ [(newName, a)]) name = None)
  ∧ ∀ k, k ≠ name → k ≠ newName →
         lookupAsset (deleteAsset assets name ++ [(newName, a)]) k
         = lookupAsset assets k.
Proof.
  intros Hnd Hin Hfree _ Hproto.
  assert (newName ∉ names (deleteAsset assets name)) as Hfresh.
  { rewrite names_deleteAsset, list_elem_of_filter.
    intros [Hne Hnew]. destruct Hfree; done. }
  assert (setAsset (deleteAsset assets name) newName a
          = deleteAsset assets name ++ [(newName, a)]) as Hset
    by (by apply setAsset_fresh).
  split.
  { unfold renameAsset. rewrite (lookupAsset_elem assets name a) by done.
    cbn zeta. apply String.eqb_neq in Hproto. by rewrite Hproto, Hset. }
  rewrite <- Hset. split.
  { rewrite Hset, length_app. simpl.
    rewrite <- (length_deleteAsset assets name);
      [lia|done|by apply (elem_names assets name a)]. }
  split.
  { rewrite Hset. unfold names. rewrite fmap_app. apply NoDup_app.
    split; [by apply NoDup_deleteAsset|].
    split; [|apply NoDup_singleton].
    intros k Hk. simpl. rewrite list_elem_of_singleton. by intros ->. }
  split.
  { by rewrite lookupAsset_setAsset, String.eqb_refl. }
  split.
  { intros Hne. rewrite lookupAsset_setAsset, lookupAsset_deleteAsset.
    rewrite String.eqb_refl.
    destruct (String.eqb_spec newName name); done. }
  intros k Hk Hk'. rewrite lookupAsset_setAsset, lookupAsset_deleteAsset.
  destruct (String.eqb_spec newName k); [congruence|].
  destruct (String.eqb_spec name k); congruence.
Qed.

(** X7.  Renaming an entry to the name of another entry replaces that other
    entry: the table is one entry shorter, the taken name now reads as the
    renamed asset, and the old name reads as absent.  Nothing guards the
    baseline key. *)
Theorem rename_onto_taken_name assets name a newName victim :
  NoDup (names assets) → (name, a) ∈ assets → (newName, victim) ∈ assets →
  newName ≠ name → hasNonDigit newName = true →
  ∃ renamed, renameAsset assets name newName = Some renamed
    ∧ S (length renamed) = length assets
    ∧ names renamed = filter (λ k, k ≠ name) (names assets)
    ∧ lookupAsset renamed newName = Some a
    ∧ lookupAsset renamed name = None
    ∧ ∀ k, k ≠ name → k ≠ newName →
           lookupAsset renamed k = lookupAsset assets k.
Proof.
  intros Hnd Hin Hvic Hne _.
  exists (setAsset (deleteAsset assets name) newName a).
  assert (newName ∈ names (deleteAsset assets name)) as Htaken.
  { rewrite names_deleteAsset, list_elem_of_filter. split; [done|].
    by apply (elem_names assets newName victim). }
  split.
  { unfold renameAsset. rewrite (lookupAsset_elem assets name a) by done.
    cbn zeta. rewrite (bool_decide_eq_true_2 _ Htaken).
    by rewrite andb_false_r. }
  split.
  { rewrite length_setAsset_taken by done.
    apply length_deleteAsset; [done|by apply (elem_names assets name a)]. }
  split.
  { rewrite names_setAsset_taken by done. apply names_deleteAsset. }
  split.
  { by rewrite lookupAsset_setAsset, String.eqb_refl. }
  split.
  { rewrite lookupAsset_setAsset, lookupAsset_deleteAsset, String.eqb_refl.
    destruct (String.eqb_spec newName name); done. }
  intros k Hk Hk'. rewrite lookupAsset_setAsset, lookupAsset_deleteAsset.
  destruct (String.eqb_spec newName k); [congruence|].
  destruct (String.eqb_spec name k); congruence.
Qed.

Lemma setField_isBaseline a field value a' :
  setField a field value = Some a' → isBaseline a' = isBaseline a.
Proof.
  unfold setField. destruct value; repeat case_match; intros [= <-]; done.
Qed.

(** X8.  An edit of one field of an entry changes that entry alone: the
    names and their order stay, the entry keeps its [isBaseline] flag, and
    every other name reads as before. *)
Theorem change_edits_one_entry assets name a field value a' :
  NoDup (names assets) → (name, a) ∈ assets →
  setField a field value = Some a' →
  ∃ edited, handleAssetChange assets name field value = Some edited
    ∧ names edited = names assets
    ∧ lookupAsset edited name = Some a'
    ∧ isBaseline a' = isBaseline a
    ∧ ∀ k, k ≠ name → lookupAsset edited k = lookupAsset assets k.
Proof.
  intros Hnd Hin Hset. exists (setAsset assets name a').
  split.
  { unfold handleAssetChange.
    by rewrite (lookupAsset_elem assets name a), Hset. }
  split.
  { apply names_setAsset_taken. by apply (elem_names assets name a). }
  split.
  { by rewrite lookupAsset_setAsset, String.eqb_refl. }
  split; [by apply (setField_isBaseline a field value)|].
  intros k Hk. rewrite lookupAsset_setAsset.
  destruct (String.eqb_spec name k); congruence.
Qed.

(** ** Scenario presets *)

Lemma lookupPreset_known presetName :
  lookupPreset scenarioPresets presetName = None
  ↔ presetName ∉ scenarioPresets.*1.
Proof.
  generalize scenarioPresets. intros table.
  induction table as [|[k p] rest IH]; simpl.
  - split; [intros _; apply not_elem_of_nil|done].
  - rewrite not_elem_of_cons.
    destruct (String.eqb_spec k presetName) as [->|Hk].
    + split; [done|]. intros [? _]. done.
    + rewrite IH. split; [intros H; split; [congruence|done]|].
      by intros [_ H].
Qed.

(** X9.  [applyScenarioPreset] throws exactly for a name that is neither in
    the preset table nor a property every object inherits; for a name of
    the table it keeps the amount, the years, the fees, the inflation and
    the seed, and the preset applied last decides the whole scenario:
    applying a second preset gives what it gives on the state before the
    first. *)
Theorem preset_applied_last_wins cfg presetName :
  (applyScenarioPreset cfg presetName = inl TypeError
   ↔ (presetName ∉ scenarioPresets.*1) ∧ (presetName ∉ inheritedKeys))
  ∧ (presetName ∈ scenarioPresets.*1 →
     ∃ cfg', applyScenarioPreset cfg presetName = inr (Some (cfg', presetName)))
  ∧ ∀ cfg' selected,
      applyScenarioPreset cfg presetName = inr (Some (cfg', selected)) →
      selected = presetName
      ∧ initialAmount cfg' = initialAmount cfg ∧ years cfg' = years cfg
      ∧ annualFees cfg' = annualFees cfg
      ∧ inflationRate cfg' = inflationRate cfg
      ∧ randomSeedBase cfg' = randomSeedBase cfg
      ∧ ∀ next, applyScenarioPreset cfg' next = applyScenarioPreset cfg next.
Proof.
  split; [|split].
  - rewrite <- lookupPreset_known. unfold applyScenarioPreset, isInherited.
    destruct (lookupPreset scenarioPresets presetName) as [p|].
    + split; [discriminate|]. by intros [? _].
    + case_bool_decide as Hin.
      * split; [discriminate|]. by intros [_ ?].
      * done.
  - intros Hin. unfold applyScenarioPreset.
    destruct (lookupPreset scenarioPresets presetName) as [p|] eqn:Hp.
    + by eexists.
    + by apply lookupPreset_known in Hp.
  - intros cfg' selected. unfold applyScenarioPreset.
    destruct (lookupPreset scenarioPresets presetName) as [p|];
      [|by destruct (isInherited presetName)].
    intros [= <- <-]. repeat split.
Qed.

(** ** Handlers and the random pattern *)

(** X14.  Assets that come later in the table do not touch the factors of
    the earlier ones; in particular an asset added under a free name leaves
    the factors of every asset that was there unchanged. *)
Theorem later_assets_keep_factors (msqrt mlog mcos : Q → Q) (mpi : Q)
    cfg assets n :
  (∀ more, n ∉ names more →
     randomFactors msqrt mlog mcos mpi cfg (assets ++ more) !! n
     = randomFactors msqrt mlog mcos mpi cfg assets !! n)
  ∧ (n ∈ names assets → newAssetName assets ∉ names assets →
     randomFactors msqrt mlog mcos mpi cfg (handleAddAsset assets) !! n
     = randomFactors msqrt mlog mcos mpi cfg assets !! n).
Proof.
  split.
  - intros more Hn. by apply randomFactors_app.
  - intros Hn Hfresh. rewrite (handleAddAsset_fresh assets Hfresh).
    apply randomFactors_app. unfold names. simpl.
    rewrite list_elem_of_singleton. by intros ->.
Qed.

Lemma setField_volatility a field value a' :
  field ≠ "volatility"%string → setField a field value = Some a' →
  volatility a' = volatility a.
Proof.
  intros Hf. unfold setField. destruct value; repeat case_match;
    intros [= <-]; try done.
  exfalso. apply Hf. by apply String.eqb_eq.
Qed.

Lemma rngView_setAsset assets name a a' :
  NoDup (names assets) → (name, a) ∈ assets →
  volatility a' = volatility a → isBaseline a' = isBaseline a →
  rngView (setAsset assets name a') = rngView assets.
Proof.
  intros Hnd Hin Hv Hb. unfold rngView.
  induction assets as [|[k b] rest IH]; [by apply elem_of_nil in Hin|].
  unfold names in Hnd. simpl in Hnd. apply NoDup_cons in Hnd as [Hk Hnd].
  simpl. destruct (String.eqb_spec k name) as [->|Hne].
  - apply elem_of_cons in Hin as [Heq|Hin].
    + injection Heq as <-. simpl. by rewrite Hv, Hb.
    + exfalso. apply Hk. by apply (elem_names rest name a).
  - apply elem_of_cons in Hin as [Heq|Hin]; [congruence|].
    simpl. f_equal. by apply IH.
Qed.

(** X28.  An edit of an asset's return, drawdown impact, crisis sensitivity
    or colour leaves every random factor as it was. *)
Theorem edit_keeps_random_pattern (msqrt mlog mcos : Q → Q) (mpi : Q)
    cfg assets name a field value edited :
  NoDup (names assets) → (name, a) ∈ assets →
  field ≠ "volatility"%string →
  handleAssetChange assets name field value = Some edited →
  randomFactors msqrt mlog mcos mpi cfg edited
  = randomFactors msqrt mlog mcos mpi cfg assets.
Proof.
  intros Hnd Hin Hf. unfold handleAssetChange.
  rewrite (lookupAsset_elem assets name a) by done.
  destruct (setField a field value) as [a'|] eqn:Hset; [|done].
  intros [= <-]. unfold randomFactors. f_equal.
  apply randomFactorsFold_view; [done|done|].
  apply (rngView_setAsset assets name a a'); [done|done| |].
  - by apply (setField_volatility a field value).
  - by apply (setField_isBaseline a field value).
Qed.

(** ** Rounding and drag on the rows *)

Lemma compound_nonneg amount r (y : nat) :
  0 <= amount → -100 <= r → 0 <= compound amount r y.
Proof.
  intros Ha Hr. rewrite compound_power.
  apply Qmult_le_0_compat; [done|]. apply Qpower_0_le.
  assert (r / 100 == r * (1 # 100)) as -> by field. lra.
Qed.

(** X30.  Without crisis and volatility, non-negative fees and inflation
    never raise a value: every year of a non-baseline asset is at most its
    baseline value (amount at least 0, return at least -100). *)
Theorem drag_never_raises (pow_frac : Q → Q → Q) cfg assets factors n a y :
  NoDup (names assets) → (n, a) ∈ assets → isBaseline a = false →
  enableRisk cfg = false → enableVolatility cfg = false →
  0 <= initialAmount cfg → -100 <= return_ a →
  0 <= annualFees cfg + inflationRate cfg →
  (y ≤ years cfg)%nat →
  getCell (scenarioRows pow_frac cfg assets (baselineData cfg assets) factors)
          y n
  <= getCell (baselineData cfg assets) y n.
Proof.
  intros Hnd Hin Ha Hrisk Hvol Hamt Hret Hdrag Hy. unfold scenarioRows.
  rewrite volatilityStage_off, crisisStage_off by done.
  destruct y as [|y]; [rewrite dragStage_row0; apply Qle_refl|].
  rewrite (dragStage_tracked pow_frac cfg assets _ (S y) n a);
    [|done|done|done|lia|rewrite length_baselineData; lia].
  rewrite (baselineData_tracked cfg assets (S y) n a) by done.
  pose proof (toFixed2_nonneg _ (compound_nonneg (initialAmount cfg)
                                   (return_ a) (S y) Hamt Hret)) as Hb.
  assert (1 <= (1 + combinedAnnualDrag cfg) ^ Z.of_nat (S y)) as Hp.
  { apply Qpower_1_le; [|lia]. unfold combinedAnnualDrag.
    revert Hdrag. generalize (annualFees cfg + inflationRate cfg).
    intros d Hd. assert (d / 100 == d * (1 # 100)) as -> by field. lra. }
  revert Hb Hp.
  generalize (toFixed2 (compound (initialAmount cfg) (return_ a) (S y))).
  generalize ((1 + combinedAnnualDrag cfg) ^ Z.of_nat (S y)).
  intros p b Hb Hp. apply Qle_shift_div_r; [lra|].
  assert (0 <= b * (p - 1)) as H by (apply Qmult_le_0_compat; lra).
  assert (b * p == b + b * (p - 1)) as -> by ring. lra.
Qed.

(** ** The further properties at the worked inputs *)

Ltac by_computation := vm_compute; first [reflexivity | discriminate | exact I].

Lemma fresh_defaultAssets : newAssetName defaultAssets ∉ names defaultAssets.
Proof. apply (bool_decide_unpack _). by_computation. Qed.

Lemma spx_in_defaultAssets : (spxKey, spx) ∈ defaultAssets.
Proof. do 4 right. left. Qed.

Lemma baseline_in_defaultAssets : (baselineKey, baselineAsset) ∈ defaultAssets.
Proof. left. Qed.

Lemma add_appends_when_free_witness :
  length (handleAddAsset defaultAssets) = 8%nat
  ∧ lookupAsset (handleAddAsset defaultAssets) "New Asset 7"
    = Some newAssetFields.
Proof.
  destruct (add_appends_when_free defaultAssets)
    as (_ & Hlen & _ & Hnew & _);
    [exact NoDup_defaultAssets | exact fresh_defaultAssets |].
  split; [exact Hlen | exact Hnew].
Defined.

Lemma remove_takes_one_out_witness :
  ∃ rest, handleRemoveAsset defaultAssets spxKey = inr rest
    ∧ lookupAsset rest spxKey = None
    ∧ S (length rest) = 7%nat.
Proof.
  destruct (remove_takes_one_out defaultAssets spxKey spx)
    as (rest & H1 & H2 & _ & _ & _ & H6);
    [exact NoDup_defaultAssets | exact spx_in_defaultAssets | reflexivity |].
  exists rest. split; [exact H1|]. split; [exact H2 | exact H6].
Defined.

Lemma constructor_absent : "constructor"%string ∉ names defaultAssets.
Proof. apply (bool_decide_unpack _). by_computation. Qed.

Lemma constructor_inherited : "constructor"%string ∈ inheritedKeys.
Proof. apply (bool_decide_unpack _). by_computation. Qed.

Lemma remove_throws_iff_unknown_witness :
  handleRemoveAsset defaultAssets "constructor" = inr defaultAssets.
Proof.
  destruct (remove_throws_iff_unknown defaultAssets "constructor") as [_ H].
  apply H; [exact constructor_absent | exact constructor_inherited].
Defined.

Lemma add_then_remove_witness :
  handleRemoveAsset (handleAddAsset defaultAssets)
    (newAssetName defaultAssets)
  = inr defaultAssets.
Proof. apply (add_then_remove defaultAssets). exact fresh_defaultAssets. Defined.

Lemma baseline_entry_kept_witness :
  lookupAsset (handleAddAsset defaultAssets) baselineKey = Some baselineAsset.
Proof.
  destruct (baseline_entry_kept defaultAssets baselineAsset) as [H _];
    [reflexivity | reflexivity | exact H].
Defined.

Lemma myFund_free : "My Fund"%string ∉ names defaultAssets.
Proof. apply (bool_decide_unpack _). by_computation. Qed.

Lemma rename_to_free_name_witness :
  renameAsset defaultAssets spxKey "My Fund"
  = Some (deleteAsset defaultAssets spxKey ++ [("My Fund"%string, spx)]).
Proof.
  destruct (rename_to_free_name defaultAssets spxKey spx "My Fund")
    as (H & _);
    [ exact NoDup_defaultAssets | exact spx_in_defaultAssets
    | right; exact myFund_free | reflexivity | discriminate | exact H ].
Defined.

Lemma rename_onto_taken_name_witness :
  ∃ renamed, renameAsset defaultAssets spxKey baselineKey = Some renamed
    ∧ S (length renamed) = 7%nat
    ∧ lookupAsset renamed baselineKey = Some spx.
Proof.
  destruct (rename_onto_taken_name defaultAssets spxKey spx baselineKey
              baselineAsset)
    as (renamed & H1 & H2 & _ & H4 & _);
    [ exact NoDup_defaultAssets | exact spx_in_defaultAssets
    | exact baseline_in_defaultAssets | discriminate | reflexivity |].
  exists renamed. split; [exact H1|]. split; [exact H2 | exact H4].
Defined.

Lemma change_edits_one_entry_witness :
  ∃ edited,
    handleAssetChange defaultAssets spxKey "return" (NumberValue 9)
    = Some edited
    ∧ names edited = names defaultAssets
    ∧ lookupAsset edited spxKey
      = Some (mkAsset 9 (15 # 100) 1 "#ff7300" false 1).
Proof.
  destruct (change_edits_one_entry defaultAssets spxKey spx "return"
              (NumberValue 9) (mkAsset 9 (15 # 100) 1 "#ff7300" false 1))
    as (edited & H1 & H2 & H3 & _);
    [ exact NoDup_defaultAssets | exact spx_in_defaultAssets | reflexivity |].
  exists edited. split; [exact H1|]. split; [exact H2 | exact H3].
Defined.

Lemma preset_applied_last_wins_witness :
  years (mkConfig 100000 5 0 (25 # 10) false "NONE" 0 1 "V_SHAPED" false 1 1)
  = years recessionConfig
  ∧ applyScenarioPreset
      (mkConfig 100000 5 0 (25 # 10) false "NONE" 0 1 "V_SHAPED" false 1 1)
      "Severe Crisis"
    = applyScenarioPreset recessionConfig "Severe Crisis".
Proof.
  destruct (preset_applied_last_wins recessionConfig "Nada") as (_ & _ & H).
  destruct (H (mkConfig 100000 5 0 (25 # 10) false "NONE" 0 1 "V_SHAPED"
                 false 1 1) "Nada"%string)
    as (_ & _ & Hy & _ & _ & _ & Hnext); [reflexivity|].
  split; [exact Hy | exact (Hnext "Severe Crisis"%string)].
Defined.

Lemma generator_stays_in_range_witness :
  (1 ≤ (seededRandom 1).2 < 2147483647)%Z
  ∧ 0 <= (seededRandom 1).1 ∧ (seededRandom 1).1 < 1.
Proof.
  destruct (generator_stays_in_range sample_unary sample_unary sample_unary
              sample_PI 1) as (H1 & H2 & H3 & _); [lia|].
  split; [exact H1|]. split; [exact H2 | exact H3].
Defined.

Lemma zero_seed_never_recovers_witness :
  (foldl (randomFactorsStep sample_unary sample_unary sample_unary sample_PI
            zeroSeedConfig)
         (∅, randomSeedBase zeroSeedConfig) twoAssets).2 = 0%Z.
Proof.
  destruct (zero_seed_never_recovers sample_unary sample_unary sample_unary
              sample_PI zeroSeedConfig twoAssets) as (_ & _ & _ & H);
    [reflexivity | exact H].
Defined.

Lemma randomFactors_shape_witness :
  length (replicate 6 (0 : Q)) = (years steadyConfig + 1)%nat.
Proof.
  destruct (randomFactors_shape sample_unary sample_unary sample_unary
              sample_PI steadyConfig twoAssets) as [_ H].
  apply (H baselineKey (replicate 6 0)). by_computation.
Defined.

Lemma baseline_draws_nothing_witness :
  randomFactors sample_unary sample_unary sample_unary sample_PI
    steadyConfig twoAssets !! spxKey
  = randomFactors sample_unary sample_unary sample_unary sample_PI
      steadyConfig (filter (λ e, isBaseline e.2 = false) twoAssets) !! spxKey.
Proof.
  apply (baseline_draws_nothing sample_unary sample_unary sample_unary
           sample_PI steadyConfig twoAssets spxKey spx);
    [exact NoDup_twoAssets | exact spx_in_twoAssets | reflexivity].
Defined.

Lemma later_assets_keep_factors_witness :
  randomFactors sample_unary sample_unary sample_unary sample_PI
    steadyConfig (handleAddAsset defaultAssets) !! spxKey
  = randomFactors sample_unary sample_unary sample_unary sample_PI
      steadyConfig defaultAssets !! spxKey.
Proof.
  destruct (later_assets_keep_factors sample_unary sample_unary sample_unary
              sample_PI steadyConfig defaultAssets spxKey) as [_ H].
  apply H; [|exact fresh_defaultAssets].
  apply (elem_names defaultAssets spxKey spx). exact spx_in_defaultAssets.
Defined.

Lemma edit_keeps_random_pattern_witness :
  randomFactors sample_unary sample_unary sample_unary sample_PI steadyConfig
    [(baselineKey, baselineAsset);
     (spxKey, mkAsset 9 (15 # 100) 1 "#ff7300" false 1)]
  = randomFactors sample_unary sample_unary sample_unary sample_PI
      steadyConfig twoAssets.
Proof.
  apply (edit_keeps_random_pattern sample_unary sample_unary sample_unary
           sample_PI steadyConfig twoAssets spxKey spx "return"
           (NumberValue 9));
    [ exact NoDup_twoAssets | exact spx_in_twoAssets | discriminate
    | reflexivity ].
Defined.

Lemma baselineData_shape_witness :
  dom (baselinePoint steadyConfig twoAssets 0)
  =@{gset string}
  {[ baselineKey ]}
  ∪ list_to_set (names (filter (λ e, isBaseline e.2 = false) twoAssets)).
Proof.
  destruct (baselineData_shape steadyConfig twoAssets) as [_ H].
  apply (H 0%nat). reflexivity.
Defined.

Lemma baseline_grows_witness :
  getCell (baselineData steadyConfig twoAssets) 2 spxKey
  <= getCell (baselineData steadyConfig twoAssets) 4 spxKey.
Proof.
  apply (baseline_grows steadyConfig twoAssets spxKey spx 2 4);
    [ exact NoDup_twoAssets | exact spx_in_twoAssets | reflexivity
    | by_computation | by_computation | simpl; lia ].
Defined.

Lemma year0_is_initial_amount_witness :
  getCell (scenarioRows sample_pow_frac mildRecessionConfig twoAssets
             (baselineData mildRecessionConfig twoAssets) ∅) 0 spxKey
  = toFixed2 (initialAmount mildRecessionConfig).
Proof.
  destruct (year0_is_initial_amount sample_pow_frac mildRecessionConfig
              twoAssets ∅ spxKey spx) as [_ H];
    [exact NoDup_twoAssets | exact spx_in_twoAssets | reflexivity | exact H].
Defined.

Lemma crisis_type_none_is_no_crisis_witness :
  getCell (scenarioRows sample_pow_frac riskNoneConfig twoAssets
             (baselineData riskNoneConfig twoAssets) ∅) 3 spxKey
  == getCell (baselineData riskNoneConfig twoAssets) 3 spxKey
     / (1 + (annualFees riskNoneConfig + inflationRate riskNoneConfig) / 100)
       ^ Z.of_nat 3.
Proof.
  destruct (crisis_type_none_is_no_crisis sample_pow_frac riskNoneConfig
              twoAssets ∅ spxKey spx 3) as [_ H];
    [ reflexivity | reflexivity | exact NoDup_twoAssets
    | exact spx_in_twoAssets | reflexivity | simpl; lia | exact H ].
Defined.

Lemma year1_takes_the_shock_witness :
  getCell (scenarioRows sample_pow_frac recessionConfig twoAssets
             (baselineData recessionConfig twoAssets) ∅) 1 spxKey
  == getCell (baselineData recessionConfig twoAssets) 1 spxKey
     / (1 + combinedAnnualDrag recessionConfig)
     * (1 - drawdownImpactDecimal recessionConfig spx).
Proof.
  apply (year1_takes_the_shock sample_pow_frac recessionConfig twoAssets ∅
           spxKey spx);
    [ reflexivity | discriminate | reflexivity | exact NoDup_twoAssets
    | exact spx_in_twoAssets | reflexivity | simpl; lia ].
Defined.

Lemma crisis_years_recurrence_witness :
  getCell (scenarioRows sample_pow_frac recessionConfig twoAssets
             (baselineData recessionConfig twoAssets) ∅) 4 spxKey
  = crisisValue sample_pow_frac recessionConfig
      (baselineData recessionConfig twoAssets) spxKey spx
      (getCell (scenarioRows sample_pow_frac recessionConfig twoAssets
                  (baselineData recessionConfig twoAssets) ∅) 1 spxKey)
      (getCell (scenarioRows sample_pow_frac recessionConfig twoAssets
                  (baselineData recessionConfig twoAssets) ∅) 3 spxKey)
      4.
Proof.
  apply (crisis_years_recurrence sample_pow_frac recessionConfig twoAssets ∅
           spxKey spx 4);
    [ reflexivity | discriminate | reflexivity | exact NoDup_twoAssets
    | exact spx_in_twoAssets | reflexivity | simpl; lia ].
Defined.


Lemma zero_drawdown_still_costs_witness :
  permanentDamageRatio zeroDrawdownConfig spx == 9 # 10
  ∧ getCell (scenarioRows sample_pow_frac zeroDrawdownConfig twoAssets
               (baselineData zeroDrawdownConfig twoAssets) ∅) 3 spxKey
    <= getCell (baselineData zeroDrawdownConfig twoAssets) 3 spxKey
         / (1 + combinedAnnualDrag zeroDrawdownConfig) ^ Z.of_nat 3
       * (9 # 10).
Proof.
  destruct (zero_drawdown_still_costs sample_pow_frac zeroDrawdownConfig
              twoAssets ∅ spxKey spx 3) as (H1 & _ & H3);
    [ reflexivity | reflexivity | reflexivity | reflexivity
    | exact NoDup_twoAssets | exact spx_in_twoAssets | reflexivity
    | simpl; lia |].
  split; [exact H1 | exact H3].
Defined.

Lemma volatility_scales_and_rounds_witness :
  getCell (scenarioRows sample_pow_frac mildRecessionConfig twoAssets
             (baselineData mildRecessionConfig twoAssets) ∅) 2 spxKey
  = toFixed2
      (getCell (crisisStage sample_pow_frac mildRecessionConfig twoAssets
                  (baselineData mildRecessionConfig twoAssets)
                  (dragStage sample_pow_frac mildRecessionConfig twoAssets
                     (baselineData mildRecessionConfig twoAssets))) 2 spxKey
       * (1 + factorAt ∅ spxKey 2)).
Proof.
  destruct (volatility_scales_and_rounds sample_pow_frac mildRecessionConfig
              twoAssets ∅ spxKey spx 2) as [H _];
    [ reflexivity | exact NoDup_twoAssets | exact spx_in_twoAssets
    | reflexivity | simpl; lia | exact H ].
Defined.

Lemma metrics_cover_non_baseline_witness :
  summaryMetrics sample_pow_frac sample_unary steadyConfig twoAssets
    (baselineData steadyConfig twoAssets) !! baselineKey = None.
Proof.
  destruct (metrics_cover_non_baseline sample_pow_frac sample_unary
              steadyConfig twoAssets (baselineData steadyConfig twoAssets))
    as [_ H].
  apply (H baselineKey baselineAsset);
    [exact NoDup_twoAssets | exact baseline_in_twoAssets | reflexivity].
Defined.

Lemma maxDrawdown_bounds_witness :
  ∃ m, summaryMetrics sample_pow_frac sample_unary steadyConfig twoAssets
         (baselineData steadyConfig twoAssets) !! spxKey = Some m
       ∧ maxDrawdown m <= 100
       ∧ toFixed2 (lossFromStart (baselineData steadyConfig twoAssets)
                     spxKey 3)
         <= maxDrawdown m.
Proof.
  destruct (maxDrawdown_bounds sample_pow_frac sample_unary steadyConfig
              twoAssets (baselineData steadyConfig twoAssets) spxKey spx)
    as (m & Hm & Hub & Hloss);
    [ exact NoDup_twoAssets | exact spx_in_twoAssets | reflexivity
    | intros y Hy; do 6 (destruct y as [|y]; [vm_compute; reflexivity|]);
      simpl in Hy; lia
    | ].
  exists m. split; [exact Hm|]. split; [exact Hub|].
  apply Hloss. simpl. lia.
Defined.

Lemma calm_presets_give_plain_growth_witness :
  getCell (scenarioRows sample_pow_frac
             (mkConfig 100000 5 0 (25 # 10) false "NONE" 0 1 "V_SHAPED"
                false 1 1)
             twoAssets
             (baselineData
                (mkConfig 100000 5 0 (25 # 10) false "NONE" 0 1 "V_SHAPED"
                   false 1 1) twoAssets) ∅) 5 spxKey
  == getCell (baselineData recessionConfig twoAssets) 5 spxKey
     / (1 + (annualFees recessionConfig + inflationRate recessionConfig)
            / 100) ^ Z.of_nat 5.
Proof.
  destruct (calm_presets_give_plain_growth sample_pow_frac recessionConfig
              "Nada" (mkConfig 100000 5 0 (25 # 10) false "NONE" 0 1
                        "V_SHAPED" false 1 1)
              "Nada"%string twoAssets ∅ spxKey spx 5) as [_ H];
    [ left; reflexivity | reflexivity | exact NoDup_twoAssets
    | exact spx_in_twoAssets | reflexivity | simpl; lia | exact H ].
Defined.

Lemma drag_never_raises_witness :
  getCell (scenarioRows sample_pow_frac riskFreeInflationConfig twoAssets
             (baselineData riskFreeInflationConfig twoAssets) ∅) 3 spxKey
  <= getCell (baselineData riskFreeInflationConfig twoAssets) 3 spxKey.
Proof.
  apply (drag_never_raises sample_pow_frac riskFreeInflationConfig twoAssets
           ∅ spxKey spx 3);
    [ exact NoDup_twoAssets | exact spx_in_twoAssets | reflexivity
    | reflexivity | reflexivity | by_computation | by_computation
    | by_computation | simpl; lia ].
Defined.
